(** * tilenol: the Elasticsearch feature source and layer construction

    A shallow embedding of the Go sources [elasticsearch.go] (the
    Elasticsearch-backed [Source]) and [layer.go] ([CreateLayer]), with the
    properties of the retrieval pipeline proved over it.

    Conventions of the embedding:
    - a Go [interface{}] holding decoded JSON is the inductive [value];
      [map[string]interface{}] is a [gmap string value];
    - a Go [float64] is a binary64 [float];
    - a Go result pair [(x, err)] is a pair of options, [None] being [nil];
    - a run-time panic is the [Panic] outcome, distinct from a returned error;
    - logging, derived contexts and backend calls are threaded through an
      explicit [World]. *)

From Stdlib Require Import Floats ZArith Ascii.
From stdpp Require Import gmap strings list fin_maps pretty.

Local Open Scope string_scope.
Local Open Scope list_scope.
#[local] Set Warnings "-register-all,-clear-no-such-hyp".
#[local] Set Default Proof Using "Type*".

(** ** Go values *)

(** What an [interface{}] can hold in this program: the results of
    [json.Unmarshal] into [interface{}] (nil, bool, float64, string, slice,
    map) and the [int64] counts the aggregation path stores. *)
Inductive value : Type :=
| VNil
| VBool (b : bool)
| VFloat64 (f : float)
| VInt64 (n : Z)
| VString (s : string)
| VSlice (l : list value)
| VMap (m : gmap string value).

(** Go's [error] values that this program creates or compares against. *)
Inductive error : Type :=
| io_EOF
| MultipleSourcesErr
| NoSourcesErr
| Errorf (msg : string)
| ExternalErr (msg : string).

#[global] Instance error_eq_dec : EqDecision error.
Proof. solve_decision. Defined.

(** A Go result pair [(x, err)]. *)
Definition GoResult (A : Type) : Type := (option A * option error)%type.

Inductive PanicKind : Type :=
| TypeAssertionFailed
| NilDereference
| IndexOutOfRange.

Inductive Outcome (A : Type) : Type :=
| Ret (a : A)
| Panic (p : PanicKind).
Arguments Ret {A} a.
Arguments Panic {A} p.

(** ** [strings.Split(s, ".")] *)

(** Splitting on a one-character separator: the pieces between
    consecutive separators, one more piece than there are separators. *)
Fixpoint Split (s : string) (sep : Ascii.ascii) : list string :=
  match s with
  | EmptyString => [EmptyString]
  | String c rest =>
      if Ascii.eqb c sep then EmptyString :: Split rest sep
      else match Split rest sep with
           | [] => [String c EmptyString]
           | piece :: pieces => String c piece :: pieces
           end
  end.

(** ** [GetNested] *)

Fixpoint GetNested (something : value) (keyParts : list string) : value * bool :=
  match keyParts with
  | [] => (something, true)
  | key :: keyParts' =>
      match something with
      | VMap m =>
          match m !! key with
          | Some v => GetNested v keyParts'
          | None => (VNil, false)
          end
      | _ => (VNil, false)
      end
  end.

(** [delete(parentMap, lastPart)] where [parentMap] aliases the map found
    at [path] inside the document: the document decoded by
    [json.Unmarshal] is a tree without sharing, so the in-place deletion
    is the update of the document at [path]. *)
Fixpoint deleteAt (path : list string) (key : string) (doc : value) : value :=
  match path with
  | [] =>
      match doc with
      | VMap m => VMap (delete key m)
      | _ => doc
      end
  | k :: path' =>
      match doc with
      | VMap m =>
          match m !! k with
          | Some child => VMap (<[k := deleteAt path' key child]> m)
          | None => doc
          end
      | _ => doc
      end
  end.

(** ** Geometry ([orb]) *)

(** [orb.Point] is [[2]float64]: index 0 is the longitude, 1 the latitude. *)
Definition Point : Type := (float * float)%type.

Record Bound : Type := { Min : Point; Max : Point }.

Definition Left (b : Bound) : float := fst (Min b).
Definition Right (b : Bound) : float := fst (Max b).
Definition Top (b : Bound) : float := snd (Max b).
Definition Bottom (b : Bound) : float := snd (Min b).

Inductive Geometry : Type :=
| GPoint (p : Point)
| GMultiPoint (ps : list Point)
| GLineString (ps : list Point)
| GMultiLineString (ls : list (list Point))
| GPolygon (rings : list (list Point))
| GMultiPolygon (polys : list (list (list Point)))
| GCollection (gs : list Geometry).

(** ** The source configuration *)

Record ElasticsearchConfig : Type := {
  cfg_Host : string;
  cfg_Port : Z;
  cfg_Index : string;
  cfg_GeometryField : string;
  cfg_SourceFields : option (gmap string string);
  cfg_Aggs : option (gmap string string)
}.

(** ** Documents and features *)

(** [json.RawMessage]: the bytes of a document, represented by what
    [json.Unmarshal] makes of them, a syntax error or the decoded value. *)
Inductive RawMessage : Type :=
| RawInvalid (err : error)
| RawValue (v : value).

(** [json.Unmarshal(raw, &source)] with [source] a nil
    [map[string]interface{}]: an object fills the map, [null] leaves it
    nil (which reads and deletes like the empty map), anything else is a
    type error. *)
Definition json_Unmarshal (raw : RawMessage) : gmap string value * option error :=
  match raw with
  | RawInvalid err => (∅, Some err)
  | RawValue (VMap m) => (m, None)
  | RawValue VNil => (∅, None)
  | RawValue _ =>
      (∅, Some (ExternalErr "json: cannot unmarshal into Go value of type map[string]interface {}"))
  end.

(** [elastic.SearchHit]; [Source] is a [*json.RawMessage]. *)
Record SearchHit : Type := {
  hit_Id : string;
  hit_Source : option RawMessage
}.

Record Feature : Type := {
  ID : value;
  Type_ : string;
  Geometry_ : option Geometry;
  Properties : gmap string value
}.

Definition NewFeature (geom : option Geometry) : Feature :=
  {| ID := VNil; Type_ := "Feature"; Geometry_ := geom; Properties := ∅ |}.

(** The assignments [feat.ID = id] and [feat.Properties = props]. *)
Definition setID (feat : Feature) (id : value) : Feature :=
  {| ID := id; Type_ := Type_ feat; Geometry_ := Geometry_ feat;
     Properties := Properties feat |}.

Definition setProperties (feat : Feature) (props : gmap string value) : Feature :=
  {| ID := ID feat; Type_ := Type_ feat; Geometry_ := Geometry_ feat;
     Properties := props |}.

(** [Features] is a [[]*Feature]. *)
Record FeatureCollection : Type := {
  fc_Type : string;
  Features : list (option Feature)
}.

Definition NewFeatureCollection : FeatureCollection :=
  {| fc_Type := "FeatureCollection"; Features := [] |}.

Definition Append (fc : FeatureCollection) (feat : option Feature) : FeatureCollection :=
  {| fc_Type := fc_Type fc; Features := Features fc ++ [feat] |}.

(** ** The backend, as seen through [*elastic.Client] *)

Record ExtendedStats : Type := {
  Count : Z;
  Avg : option float;
  Sum : option float
}.

Record Bucket : Type := {
  Key : value;
  bucket_Aggregations : gmap string ExtendedStats
}.

Record SearchResult : Type := {
  Aggregations : gmap string (list Bucket)
}.

(** One answer of [scroll.Do]: a page of hits or an error ([io.EOF] when
    the results are exhausted). *)
Inductive ScrollResponse : Type :=
| ScrollPage (hits : list SearchHit)
| ScrollError (err : error).

(** The client stands for the backend it is connected to: what a search
    answers, and what the successive calls of a scroll answer. *)
Record Client : Type := {
  client_search : GoResult SearchResult;
  client_scroll : list ScrollResponse
}.

Record ElasticsearchSource : Type := {
  ES : Client;
  Index : string;
  GeometryField : string;
  SourceFields : option (gmap string string);
  Aggs : option (gmap string string)
}.

(** [for k, v := range m] over a possibly nil map. *)
Definition range {V : Type} (m : option (gmap string V)) : gmap string V :=
  default ∅ m.

(** ** The spatial query *)

(** The values a query [Dict] is built from; [Dict] is a named map type of
    its own, which [GetNested]'s type switch would not match. *)
Inductive QValue : Type :=
| QDict (d : gmap string QValue)
| QString (s : string)
| QCoordinates (cs : list (list float)).

Abbreviation Dict := (gmap string QValue).

Definition boundsFilter (e : ElasticsearchSource) (tileBounds : Bound) : Dict :=
  {[ "geo_shape" :=
       QDict {[ GeometryField e :=
         QDict (<[ "shape" :=
                     QDict (<[ "type" := QString "envelope" ]>
                            (<[ "coordinates" :=
                                  QCoordinates
                                    [ [Left tileBounds; Top tileBounds];
                                      [Right tileBounds; Bottom tileBounds] ] ]> ∅)) ]>
                (<[ "relation" := QString "intersects" ]> ∅)) ]} ]}.

Record BoolQuery : Type := { filterClauses : list Dict }.

Definition NewBoolQuery : BoolQuery := {| filterClauses := [] |}.

Definition Filter (q : BoolQuery) (f : Dict) : BoolQuery :=
  {| filterClauses := filterClauses q ++ [f] |}.

(** ** Mapping and retrieval *)

Definition ScrollSize : Z := 250.
(** [time.Minute], in nanoseconds. *)
Definition ScrollTimeout : Z := 60000000000.

Section HitToFeature.

(** [geojson.UnmarshalGeometry] applied to the re-encoded geometry value,
    seen through the decoded object's [Geometry()] method; the first
    component is [None] for a nil [*geojson.Geometry]. The decoder is
    [orb]'s, not this repository's. *)
Variable UnmarshalGeometry : value -> GoResult Geometry.

(** The loop of [hitToFeature] over [e.SourceFields]. *)
Definition mapSourceFields (source : value) (fields : gmap string string)
  : gmap string value :=
  map_fold (fun prop fieldName props =>
              let '(val, found) := GetNested source (Split fieldName "."%char) in
              if found then <[prop := val]> props else props)
           ∅ fields.

Definition geometryNotFound (field : string) : error :=
  Errorf ("Couldn't find geometry at field: " +:+ field).

Definition hitToFeature (e : ElasticsearchSource) (hit : SearchHit)
  : Outcome (GoResult Feature) :=
  let id := hit_Id hit in
  match hit_Source hit with
  | None => Panic NilDereference
  | Some raw =>
      let '(source, err) := json_Unmarshal raw in
      match err with
      | Some err => Ret (None, Some err)
      | None =>
          let geometryFieldParts := Split (GeometryField e) "."%char in
          let numParts := length geometryFieldParts in
          match geometryFieldParts !! (numParts - 1)%nat with
          | None => Panic IndexOutOfRange
          | Some lastPart =>
              let parentPath := take (numParts - 1) geometryFieldParts in
              let '(parent, found) := GetNested (VMap source) parentPath in
              if negb found then Ret (None, Some (geometryNotFound (GeometryField e)))
              else
                match parent with
                | VMap parentMap =>
                    let geometry := default VNil (parentMap !! lastPart) in
                    let source' := deleteAt parentPath lastPart (VMap source) in
                    match UnmarshalGeometry geometry with
                    | (None, _) => Panic NilDereference
                    | (Some geom, _) =>
                        let feat := NewFeature (Some geom) in
                        let feat := setID feat (VString id) in
                        let feat := setProperties feat ∅ in
                        let feat :=
                          setProperties feat
                            (mapSourceFields source' (range (SourceFields e))) in
                        let feat :=
                          setProperties feat (<["id" := VString id]> (Properties feat)) in
                        Ret (Some feat, None)
                    end
                | _ => Panic TypeAssertionFailed
                end
          end
      end
  end.

End HitToFeature.

(** ** Request contexts, logging and backend calls *)

(** [maptile.Tile] *)
Record Tile : Type := { tile_X : Z; tile_Y : Z; tile_Z : Z }.

(** What a context can carry under a key: a [maptile.Tile] or a value of
    another type. *)
Inductive CtxValue : Type :=
| CtxTile (t : Tile)
| CtxOther (v : value).

(** A [context.Context]: the values stored under string keys, and the
    timers of the [WithTimeout] children it descends from. *)
Record Context : Type := {
  ctx_values : gmap string CtxValue;
  ctx_timers : list nat
}.

Definition ctx_Value (ctx : Context) (key : string) : option CtxValue :=
  ctx_values ctx !! key.

(** [geohash.Box] and its [Center]. *)
Record Box : Type := { MinLat : float; MaxLat : float; MinLng : float; MaxLng : float }.

Definition Center (b : Box) : float * float :=
  (PrimFloat.div (PrimFloat.add (MinLat b) (MaxLat b)) 2%float,
   PrimFloat.div (PrimFloat.add (MinLng b) (MaxLng b)) 2%float).

Record GeoHashGridAggregation : Type := {
  agg_field : string;
  (** sub-aggregation name to the field of its extended-stats aggregation *)
  agg_subAggregations : gmap string string
}.

Definition SubAggregation (q : GeoHashGridAggregation) (name statsField : string)
  : GeoHashGridAggregation :=
  {| agg_field := agg_field q;
     agg_subAggregations := <[name := statsField]> (agg_subAggregations q) |}.

Record ScrollService : Type := {
  scroll_index : string;
  scroll_body : BoolQuery;
  scroll_size : Z
}.

Inductive LogArg : Type :=
| ArgInt (n : Z)
| ArgQuery (q : BoolQuery).

Inductive LogMsg : Type :=
| Debugf (format : string) (args : list LogArg).

(** A call of the client library's [Do]: the search with the index, query
    and aggregation the code gave it, or the scroll service the code
    configured, and the context the call runs under. What the library
    puts on the wire for a call is its own affair and is not recorded. *)
Inductive Call : Type :=
| SearchDo (index : string) (query : BoolQuery)
           (aggName : string) (agg : GeoHashGridAggregation) (ctx : Context)
| ScrollDo (scroll : ScrollService) (ctx : Context).

(** The effects of a retrieval: the timers of derived contexts that are
    acquired and not yet cancelled, the next fresh timer, the backend
    calls issued and the log lines written (oldest first). *)
Record World : Type := {
  live : gset nat;
  next_timer : nat;
  calls : list Call;
  logs : list LogMsg
}.

Definition Logger_Debugf (format : string) (args : list LogArg) (w : World) : World :=
  {| live := live w; next_timer := next_timer w; calls := calls w;
     logs := logs w ++ [Debugf format args] |}.

Definition issue (c : Call) (w : World) : World :=
  {| live := live w; next_timer := next_timer w; calls := calls w ++ [c];
     logs := logs w |}.

(** [context.WithTimeout(ctx, d)]: the child context and the handle its
    cancel function releases. *)
Definition WithTimeout (ctx : Context) (d : Z) (w : World) : Context * nat * World :=
  let t := next_timer w in
  ({| ctx_values := ctx_values ctx; ctx_timers := t :: ctx_timers ctx |}, t,
   {| live := {[t]} ∪ live w; next_timer := S t; calls := calls w; logs := logs w |}).

(** Calling a cancel function; cancelling twice is harmless. *)
Definition cancel (t : nat) (w : World) : World :=
  {| live := live w ∖ {[t]}; next_timer := next_timer w; calls := calls w;
     logs := logs w |}.

(** The deferred calls of a function run when it exits, last registered
    first. *)
Definition runDeferred (defers : list nat) (w : World) : World :=
  foldl (fun w t => cancel t w) w defers.

Section Retrieval.

Variable UnmarshalGeometry : value -> GoResult Geometry.
(** [maptile.Tile.Bound] and [geohash.BoundingBox], from the libraries. *)
Variable Tile_Bound : Tile -> Bound.
Variable geohash_BoundingBox : string -> Box.

(** *** The aggregation path *)

(** The inner loop of [doGetAggregates] over [e.Aggs] for one bucket. *)
Definition bucketProperties (aggs : gmap string string) (bucket : Bucket)
    (props : gmap string value) : Outcome (gmap string value) :=
  map_fold (fun aggName (_ : string) acc =>
              match acc with
              | Panic p => Panic p
              | Ret props =>
                  match bucket_Aggregations bucket !! aggName with
                  | Some statsAgg =>
                      match Avg statsAgg, Sum statsAgg with
                      | Some avg, Some sum =>
                          Ret (<[aggName +:+ ":count" := VInt64 (Count statsAgg)]>
                               (<[aggName +:+ ":sum" := VFloat64 sum]>
                                (<[aggName +:+ ":avg" := VFloat64 avg]> props)))
                      | _, _ => Panic NilDereference
                      end
                  | None => Ret props
                  end
              end)
           (Ret props) aggs.

Definition bucketToFeature (aggs : gmap string string) (bucket : Bucket)
  : Outcome Feature :=
  match Key bucket with
  | VString key =>
      let cellBB := geohash_BoundingBox key in
      let '(lat, lng) := Center cellBB in
      let geom := GPoint (lng, lat) in
      let feat := NewFeature (Some geom) in
      let feat := setID feat (VString key) in
      match bucketProperties aggs bucket (Properties feat) with
      | Panic p => Panic p
      | Ret props => Ret (setProperties feat props)
      end
  | _ => Panic TypeAssertionFailed
  end.

Fixpoint appendBuckets (aggs : gmap string string) (buckets : list Bucket)
    (fc : FeatureCollection) : Outcome FeatureCollection :=
  match buckets with
  | [] => Ret fc
  | bucket :: buckets' =>
      match bucketToFeature aggs bucket with
      | Panic p => Panic p
      | Ret feat => appendBuckets aggs buckets' (Append fc (Some feat))
      end
  end.

Definition doGetAggregates (e : ElasticsearchSource) (ctx : Context) (w : World)
  : Outcome (GoResult FeatureCollection) * World :=
  match ctx_Value ctx "tile" with
  | Some (CtxTile tile) =>
      let query := Filter NewBoolQuery (boundsFilter e (Tile_Bound tile)) in
      let fc := NewFeatureCollection in
      let cellAggQ :=
        map_fold (fun aggName aggField q => SubAggregation q aggName aggField)
                 {| agg_field := GeometryField e; agg_subAggregations := ∅ |}
                 (range (Aggs e)) in
      let w := issue (SearchDo (Index e) query "cells" cellAggQ ctx) w in
      match client_search (ES e) with
      | (_, Some err) => (Ret (None, Some err), w)
      | (None, None) => (Panic NilDereference, w)
      | (Some results, None) =>
          match Aggregations results !! "cells" with
          | Some buckets =>
              match appendBuckets (range (Aggs e)) buckets fc with
              | Panic p => (Panic p, w)
              | Ret fc => (Ret (Some fc, None), w)
              end
          | None => (Ret (Some fc, None), w)
          end
      end
  | _ => (Panic TypeAssertionFailed, w)
  end.

(** *** The raw-feature path *)

(** The loop over the hits of one page: [inr err] for the early
    [return nil, err]. *)
Fixpoint appendHits (e : ElasticsearchSource) (hits : list SearchHit)
    (fc : FeatureCollection) : Outcome (FeatureCollection + error) :=
  match hits with
  | [] => Ret (inl fc)
  | hit :: hits' =>
      match hitToFeature UnmarshalGeometry e hit with
      | Panic p => Panic p
      | Ret (_, Some err) => Ret (inr err)
      | Ret (feat, None) => appendHits e hits' (Append fc feat)
      end
  end.

(** The [for] loop of [doGetFeatures], one iteration per answer of the
    backend; [None] when the loop asks for a page beyond the given
    answers. The cancel functions registered with [defer] accumulate in
    [defers], most recent first. *)
Fixpoint scrollLoop (e : ElasticsearchSource) (ctx : Context) (scroll : ScrollService)
    (answers : list ScrollResponse) (fc : FeatureCollection) (defers : list nat)
    (w : World) : option (Outcome (GoResult FeatureCollection) * list nat * World) :=
  let '(scrollCtx, scrollCancel, w) := WithTimeout ctx ScrollTimeout w in
  let defers := scrollCancel :: defers in
  match answers with
  | [] => None
  | answer :: answers' =>
      let w := issue (ScrollDo scroll scrollCtx) w in
      match answer with
      | ScrollError err =>
          if decide (err = io_EOF) then Some (Ret (Some fc, None), defers, w)
          else Some (Ret (None, Some err), defers, w)
      | ScrollPage hits =>
          let w := Logger_Debugf "Scrolling %d hits" [ArgInt (Z.of_nat (length hits))] w in
          match appendHits e hits fc with
          | Panic p => Some (Panic p, defers, w)
          | Ret (inr err) => Some (Ret (None, Some err), defers, w)
          | Ret (inl fc) => scrollLoop e ctx scroll answers' fc defers (cancel scrollCancel w)
          end
      end
  end.

Definition doGetFeatures (e : ElasticsearchSource) (ctx : Context) (w : World)
  : option (Outcome (GoResult FeatureCollection) * World) :=
  match ctx_Value ctx "tile" with
  | Some (CtxTile tile) =>
      let query := Filter NewBoolQuery (boundsFilter e (Tile_Bound tile)) in
      let w := Logger_Debugf "Feature query: %V" [ArgQuery query] w in
      let fc := NewFeatureCollection in
      let scroll := {| scroll_index := Index e; scroll_body := query;
                       scroll_size := ScrollSize |} in
      match scrollLoop e ctx scroll (client_scroll (ES e)) fc [] w with
      | Some (out, defers, w) => Some (out, runDeferred defers w)
      | None => None
      end
  | _ => Some (Panic TypeAssertionFailed, w)
  end.

Definition GetFeatures (e : ElasticsearchSource) (ctx : Context) (w : World)
  : option (Outcome (GoResult FeatureCollection) * World) :=
  match Aggs e with
  | Some _ =>
      Some (doGetAggregates e ctx (Logger_Debugf "Running aggregate query" [] w))
  | None =>
      doGetFeatures e ctx (Logger_Debugf "Running hit query" [] w)
  end.

End Retrieval.

(** ** Layer construction ([layer.go]) *)

(** The options [NewElasticsearchSource] passes to [elastic.NewClient]. *)
Record ClientOptions : Type := {
  opt_URL : string;
  opt_Gzip : bool;
  (** in seconds *)
  opt_HealthcheckTimeoutStartup : Z
}.

Section Layer.

(** The PostGIS backend is declared elsewhere in the package; only its
    constructor's signature matters to [CreateLayer]. *)
Variable PostGISConfig : Type.
Variable PostGISSource : Type.
Variable NewPostGISSource : PostGISConfig -> GoResult PostGISSource.
(** [elastic.NewClient], which checks that the backend is reachable. *)
Variable elastic_NewClient : ClientOptions -> Client + error.

(** The implementations of the [Source] interface. *)
Inductive Source : Type :=
| ElasticsearchBackend (e : ElasticsearchSource)
| PostGISBackend (p : PostGISSource).

Record SourceConfig : Type := {
  Elasticsearch : option ElasticsearchConfig;
  PostGIS : option PostGISConfig
}.

Record LayerConfig : Type := {
  lc_Name : string;
  lc_Description : string;
  lc_Minzoom : Z;
  lc_Maxzoom : Z;
  lc_Source : SourceConfig
}.

Record Layer : Type := {
  Name : string;
  Description : string;
  Minzoom : Z;
  Maxzoom : Z;
  layer_Source : option Source
}.

Definition NewElasticsearchSource (config : ElasticsearchConfig) : GoResult Source :=
  match elastic_NewClient
          {| opt_URL := "http://" +:+ cfg_Host config +:+ ":" +:+ pretty (cfg_Port config);
             opt_Gzip := true;
             opt_HealthcheckTimeoutStartup := 30 |} with
  | inr err => (None, Some err)
  | inl es =>
      (Some (ElasticsearchBackend
               {| ES := es;
                  Index := cfg_Index config;
                  GeometryField := cfg_GeometryField config;
                  SourceFields := cfg_SourceFields config;
                  Aggs := cfg_Aggs config |}),
       None)
  end.

Definition withSource (layer : Layer) (source : option Source) : Layer :=
  {| Name := Name layer; Description := Description layer;
     Minzoom := Minzoom layer; Maxzoom := Maxzoom layer;
     layer_Source := source |}.

Definition CreateLayer (layerConfig : LayerConfig) : GoResult Layer :=
  let layer := {| Name := lc_Name layerConfig;
                  Description := lc_Description layerConfig;
                  Minzoom := lc_Minzoom layerConfig;
                  Maxzoom := lc_Maxzoom layerConfig;
                  layer_Source := None |} in
  let esConfig := Elasticsearch (lc_Source layerConfig) in
  let pgConfig := PostGIS (lc_Source layerConfig) in
  if bool_decide (esConfig ≠ None) && bool_decide (pgConfig ≠ None)
  then (None, Some MultipleSourcesErr)
  else if bool_decide (esConfig = None) && bool_decide (pgConfig = None)
  then (None, Some NoSourcesErr)
  else
    match esConfig with
    | Some esConfig =>
        match NewElasticsearchSource esConfig with
        | (_, Some err) => (None, Some err)
        | (source, None) => (Some (withSource layer source), None)
        end
    | None =>
        match pgConfig with
        | Some pgConfig =>
            match NewPostGISSource pgConfig with
            | (_, Some err) => (None, Some err)
            | (source, None) =>
                (Some (withSource layer (PostGISBackend <$> source)), None)
            end
        | None =>
            (None, Some (Errorf ("Invalid layer source config for layer: "
                                 +:+ lc_Name layerConfig)))
        end
    end.

End Layer.

Arguments ElasticsearchBackend {PostGISSource} e.
Arguments PostGISBackend {PostGISSource} p.
Arguments Build_SourceConfig {PostGISConfig} Elasticsearch PostGIS.
Arguments Elasticsearch {PostGISConfig} s.
Arguments PostGIS {PostGISConfig} s.
Arguments Build_LayerConfig {PostGISConfig} lc_Name lc_Description lc_Minzoom lc_Maxzoom lc_Source.
Arguments lc_Name {PostGISConfig} l.
Arguments lc_Description {PostGISConfig} l.
Arguments lc_Minzoom {PostGISConfig} l.
Arguments lc_Maxzoom {PostGISConfig} l.
Arguments lc_Source {PostGISConfig} l.
Arguments Build_Layer {PostGISSource} Name Description Minzoom Maxzoom layer_Source.
Arguments Name {PostGISSource} l.
Arguments Description {PostGISSource} l.
Arguments Minzoom {PostGISSource} l.
Arguments Maxzoom {PostGISSource} l.
Arguments layer_Source {PostGISSource} l.
Arguments withSource {PostGISSource} layer source.
Arguments NewElasticsearchSource {PostGISSource} elastic_NewClient config.
Arguments CreateLayer {PostGISConfig PostGISSource} NewPostGISSource elastic_NewClient layerConfig.

(** ** Utilities of the source: [getSourceFields] and [flatten] *)

(** [getSourceFields]: the geometry field, then the configured paths in
    the order the map is ranged over. *)
Definition getSourceFields (e : ElasticsearchSource) : list string :=
  map_fold (fun (_ : string) v fields => fields ++ [v])
           [GeometryField e] (range (SourceFields e)).

(** [strings.Join(parts, sep)] *)
Fixpoint Join (parts : list string) (sep : string) : string :=
  match parts with
  | [] => ""
  | [part] => part
  | part :: rest => part +:+ sep +:+ Join rest sep
  end.

(** [for i, thing := range things], threading an accumulator. *)
Fixpoint eachIndexed {A : Type} (f : nat -> value -> A -> A)
    (things : list value) (i : nat) (a : A) : A :=
  match things with
  | [] => a
  | thing :: things' => eachIndexed f things' (S i) (f i thing a)
  end.

(** [flatten(something, accum, prefixParts...)]; the map [accum], which
    the Go function updates in place, is passed and returned. Go leaves
    the order in which a map is ranged over open; it matters only when
    two leaves are written under the same key, and none of the properties
    stated of [flatten] depends on it. *)
Fixpoint flatten (something : value) (accum : gmap string value)
    (prefixParts : list string) {struct something} : gmap string value :=
  match something with
  | VNil => accum
  | VSlice things =>
      eachIndexed (fun i thing accum => flatten thing accum (prefixParts ++ [pretty i]))
                  things 0%nat accum
  | VMap m =>
      map_fold (fun key value accum => flatten value accum (prefixParts ++ [key]))
               accum m
  | _ => <[Join prefixParts "." := something]> accum
  end.

(** ** Vocabulary of the properties *)

(** Reading a query [Dict] along a path of keys. *)
Fixpoint QGet (q : QValue) (path : list string) : option QValue :=
  match path with
  | [] => Some q
  | k :: path' =>
      match q with
      | QDict d => match d !! k with Some q' => QGet q' path' | None => None end
      | _ => None
      end
  end.

Definition QKeys (q : option QValue) : option (gset string) :=
  match q with
  | Some (QDict d) => Some (dom d)
  | _ => None
  end.

(** The segments of the configured geometry field, and those of its
    parent container (all but the last). *)
Definition geometryPath (e : ElasticsearchSource) : list string :=
  Split (GeometryField e) "."%char.

Definition geometryParentPath (e : ElasticsearchSource) : list string :=
  take (length (geometryPath e) - 1) (geometryPath e).

(** The document as [hitToFeature] leaves it once the geometry is
    deleted from its parent container. *)
Definition strippedSource (e : ElasticsearchSource) (source : gmap string value) : value :=
  match last (geometryPath e) with
  | Some lastPart => deleteAt (geometryParentPath e) lastPart (VMap source)
  | None => VMap source
  end.

(** The value a configured property path resolves to, if any. *)
Definition resolveField (doc : value) (fieldName : string) : option value :=
  let '(val, found) := GetNested doc (Split fieldName "."%char) in
  if found then Some val else None.

(** A feature holds no trace of the geometry field: whenever the path of
    a configured property (other than the final "id") leads towards the
    geometry field, the rest of the way to the geometry is not found in
    the property's value; a property configured with the geometry field
    itself, or with a path below it, is absent; and "id" holds the
    feature's identifier. *)
Definition noGeometryProperty (e : ElasticsearchSource) (feat : Feature) : Prop :=
  (∀ prop fieldName v rest,
      range (SourceFields e) !! prop = Some fieldName →
      prop ≠ "id" →
      Properties feat !! prop = Some v →
      (Split fieldName "."%char ++ rest)%list = geometryPath e →
      GetNested v rest = (VNil, false)) ∧
  (∀ prop fieldName rest,
      range (SourceFields e) !! prop = Some fieldName →
      prop ≠ "id" →
      Split fieldName "."%char = (geometryPath e ++ rest)%list →
      Properties feat !! prop = None) ∧
  Properties feat !! "id" = Some (ID feat).

Definition withSourceFields (e : ElasticsearchSource)
    (fields : option (gmap string string)) : ElasticsearchSource :=
  {| ES := ES e; Index := Index e; GeometryField := GeometryField e;
     SourceFields := fields; Aggs := Aggs e |}.

(** A call returned a non-nil error. *)
Definition returnsError {A : Type} (out : Outcome (GoResult A)) : Prop :=
  ∃ x err, out = Ret (x, Some err).

(** The configured geometry field does not resolve in the document. *)
Definition geometryUnresolvable (e : ElasticsearchSource) (source : gmap string value) : Prop :=
  snd (GetNested (VMap source) (geometryPath e)) = false.

(** The value read at the geometry field fails to decode. *)
Definition geometryUndecodable (UnmarshalGeometry : value -> GoResult Geometry)
    (e : ElasticsearchSource) (source : gmap string value) : Prop :=
  snd (UnmarshalGeometry (fst (GetNested (VMap source) (geometryPath e)))) ≠ None.

(** A document is mapped to a feature, without error. *)
Definition mapsTo (UnmarshalGeometry : value -> GoResult Geometry)
    (e : ElasticsearchSource) (hit : SearchHit) (feat : Feature) : Prop :=
  hitToFeature UnmarshalGeometry e hit = Ret (Some feat, None).

(** A collection with further features appended. *)
Definition extend (fc : FeatureCollection) (feats : list Feature) : FeatureCollection :=
  {| fc_Type := fc_Type fc; Features := Features fc ++ (Some <$> feats) |}.

(** The configuration declares one or more named aggregations. *)
Definition declaresAggregations (e : ElasticsearchSource) : Prop :=
  ∃ name field, range (Aggs e) !! name = Some field.

(** [GetFeatures] answers through the aggregation path, respectively
    through the raw-feature path. *)
Definition takesAggregationPath (UnmarshalGeometry : value -> GoResult Geometry)
    (Tile_Bound : Tile -> Bound) (geohash_BoundingBox : string -> Box)
    (e : ElasticsearchSource) (ctx : Context) (w : World) : Prop :=
  GetFeatures UnmarshalGeometry Tile_Bound geohash_BoundingBox e ctx w =
  Some (doGetAggregates Tile_Bound geohash_BoundingBox e ctx
          (Logger_Debugf "Running aggregate query" [] w)).

Definition takesRawPath (UnmarshalGeometry : value -> GoResult Geometry)
    (Tile_Bound : Tile -> Bound) (geohash_BoundingBox : string -> Box)
    (e : ElasticsearchSource) (ctx : Context) (w : World) : Prop :=
  GetFeatures UnmarshalGeometry Tile_Bound geohash_BoundingBox e ctx w =
  doGetFeatures UnmarshalGeometry Tile_Bound e ctx
    (Logger_Debugf "Running hit query" [] w).

(** The suffixes of the three property keys of a metric. *)
Definition statSuffixes : list string := [":avg"; ":sum"; ":count"].

(** A bucket is keyed by a string and each configured metric it holds
    reports an average and a sum. *)
Definition reportsValues (aggs : gmap string string) (bucket : Bucket) : Prop :=
  (∃ key, Key bucket = VString key) ∧
  ∀ name stats,
    is_Some (aggs !! name) →
    bucket_Aggregations bucket !! name = Some stats →
    is_Some (Avg stats) ∧ is_Some (Sum stats).

(** [feat] is the synthetic feature of the cell [bucket]: its id is the
    cell's key, its geometry the centre of the cell's bounding box, and
    its properties are exactly the three statistics of each configured
    metric the cell holds. *)
Definition cellFeature (geohash_BoundingBox : string -> Box)
    (aggs : gmap string string) (bucket : Bucket) (feat : Feature) : Prop :=
  ∃ key,
    Key bucket = VString key ∧
    ID feat = VString key ∧
    Geometry_ feat = Some (GPoint (snd (Center (geohash_BoundingBox key)),
                                   fst (Center (geohash_BoundingBox key)))) ∧
    (∀ name stats,
        is_Some (aggs !! name) →
        bucket_Aggregations bucket !! name = Some stats →
        ∃ avg sum,
          Avg stats = Some avg ∧ Sum stats = Some sum ∧
          Properties feat !! (name +:+ ":avg") = Some (VFloat64 avg) ∧
          Properties feat !! (name +:+ ":sum") = Some (VFloat64 sum) ∧
          Properties feat !! (name +:+ ":count") = Some (VInt64 (Count stats))) ∧
    (∀ name sfx,
        bucket_Aggregations bucket !! name = None →
        sfx ∈ statSuffixes →
        Properties feat !! (name +:+ sfx) = None) ∧
    (∀ k, is_Some (Properties feat !! k) →
          ∃ name sfx,
            is_Some (aggs !! name) ∧
            is_Some (bucket_Aggregations bucket !! name) ∧
            sfx ∈ statSuffixes ∧ k = name +:+ sfx).

(** The world a terminated run of [doGetFeatures] leaves. *)
Definition worldAfter {A : Type} (run : option (A * World)) (w : World) : World :=
  match run with
  | Some (_, w') => w'
  | None => w
  end.

(** The values [flatten] records: everything but nil, slices and maps. *)
Definition isScalar (v : value) : Prop :=
  match v with
  | VNil | VSlice _ | VMap _ => False
  | _ => True
  end.

(** [Leaf doc path leaf]: descending from [doc] through the map keys and
    the (decimal) slice indices of [path] ends at the scalar [leaf]. *)
Inductive Leaf : value -> list string -> value -> Prop :=
| Leaf_here (v : value) :
    isScalar v -> Leaf v [] v
| Leaf_slice (things : list value) (i : nat) (thing : value)
             (path : list string) (leaf : value) :
    things !! i = Some thing -> Leaf thing path leaf ->
    Leaf (VSlice things) (pretty i :: path) leaf
| Leaf_map (m : gmap string value) (key : string) (child : value)
           (path : list string) (leaf : value) :
    m !! key = Some child -> Leaf child path leaf ->
    Leaf (VMap m) (key :: path) leaf.

(** A string without the separator ".". *)
Definition dotFree (s : string) : Prop :=
  "."%char ∉ String.list_ascii_of_string s.

(** A measure for inductions over nested values. *)
Fixpoint value_size (v : value) : nat :=
  match v with
  | VSlice things => S (foldr (fun thing n => value_size thing + n) 0 things)
  | VMap m => S (map_fold (fun (_ : string) child n => value_size child + n) 0 m)
  | _ => 1
  end.

(** The key of a leaf holds a leaf of that key. *)
Definition holdsLeaf (doc : value) (prefixParts : list string) (key : string)
    (accum : gmap string value) : Prop :=
  ∃ path z, Leaf doc path z ∧ Join (prefixParts ++ path) "." = key ∧ accum !! key = Some z.

(** A cell the aggregation path cannot map: its key is not a string, or
    a configured metric it holds reports no average or no sum. *)
Definition lacksValues (aggs : gmap string string) (bucket : Bucket) : Prop :=
  (∀ key, Key bucket ≠ VString key) ∨
  ∃ name stats,
    is_Some (aggs !! name) ∧
    bucket_Aggregations bucket !! name = Some stats ∧
    (Avg stats = None ∨ Sum stats = None).



(** ** Sample data *)

Module Samples.

(** A decoder for the tests below: it accepts a GeoJSON point and
    rejects everything else, the absent value (JSON null) included, with
    an error and a nil result, as [geojson.UnmarshalGeometry] does. *)
Definition decodePoint (v : value) : GoResult Geometry :=
  match v with
  | VMap m =>
      match m !! "type", m !! "coordinates" with
      | Some (VString "Point"), Some (VSlice [VFloat64 x; VFloat64 y]) =>
          (Some (GPoint (x, y)), None)
      | _, _ => (None, Some (ExternalErr "geojson: invalid geometry"))
      end
  | _ => (None, Some (ExternalErr "geojson: invalid geometry"))
  end.

Definition unitBound (_ : Tile) : Bound :=
  {| Min := ((-180)%float, (-85)%float); Max := (180%float, 85%float) |}.

Definition unitBox (_ : string) : Box :=
  {| MinLat := 0%float; MaxLat := 2%float; MinLng := 4%float; MaxLng := 8%float |}.

Definition tile0 : Tile := {| tile_X := 0; tile_Y := 0; tile_Z := 0 |}.

Definition ctxWithTile : Context :=
  {| ctx_values := {[ "tile" := CtxTile tile0 ]}; ctx_timers := [] |}.

Definition ctxEmpty : Context := {| ctx_values := ∅; ctx_timers := [] |}.

Definition world0 : World :=
  {| live := ∅; next_timer := 0; calls := []; logs := [] |}.

Definition pointValue (x y : float) : value :=
  VMap (<["type" := VString "Point"]>
        (<["coordinates" := VSlice [VFloat64 x; VFloat64 y]]> ∅)).

(** [{"a":{"b":{"c":5}}}] and [{"a":1}] *)
Definition docABC : value :=
  VMap {[ "a" := VMap {[ "b" := VMap {[ "c" := VFloat64 5 ]} ]} ]}.
Definition docA1 : value := VMap {[ "a" := VFloat64 1 ]}.

Definition client0 : Client :=
  {| client_search := (None, Some (ExternalErr "no such index"));
     client_scroll := [] |}.

(** A source reading the geometry at "geom", with one property that
    resolves in [hitGood], one that does not, and one configured with
    the geometry field itself. *)
Definition esGeom : ElasticsearchSource :=
  {| ES := client0; Index := "places"; GeometryField := "geom";
     SourceFields := Some (<["name" := "props.name"]>
                           (<["height" := "props.height"]>
                            (<["shape" := "geom"]> ∅)));
     Aggs := None |}.

Definition hitGood : SearchHit :=
  {| hit_Id := "1";
     hit_Source := Some (RawValue (VMap (<["geom" := pointValue 1 2]>
                           (<["props" := VMap {[ "name" := VString "oak" ]}]> ∅)))) |}.

(** A document whose geometry is not a geometry. *)
Definition hitGarbage : SearchHit :=
  {| hit_Id := "2";
     hit_Source := Some (RawValue (VMap {[ "geom" := VString "garbage" ]})) |}.

(** A document without the geometry field. *)
Definition hitNoGeom : SearchHit :=
  {| hit_Id := "3"; hit_Source := Some (RawValue (VMap ∅)) |}.

Definition featGood : Feature :=
  {| ID := VString "1"; Type_ := "Feature"; Geometry_ := Some (GPoint (1%float, 2%float));
     Properties := <["id" := VString "1"]> {[ "name" := VString "oak" ]} |}.

Definition withClient (e : ElasticsearchSource) (es : Client) : ElasticsearchSource :=
  {| ES := es; Index := Index e; GeometryField := GeometryField e;
     SourceFields := SourceFields e; Aggs := Aggs e |}.

Definition withAggs (e : ElasticsearchSource) (aggs : option (gmap string string))
  : ElasticsearchSource :=
  {| ES := ES e; Index := Index e; GeometryField := GeometryField e;
     SourceFields := SourceFields e; Aggs := aggs |}.

(** A backend with one page of one document, then the end of results. *)
Definition esOnePage : ElasticsearchSource :=
  withClient esGeom
    {| client_search := (None, Some (ExternalErr "no such index"));
       client_scroll := [ScrollPage [hitGood]; ScrollError io_EOF] |}.

(** A backend whose second page cannot be fetched. *)
Definition esBrokenPage : ElasticsearchSource :=
  withClient esGeom
    {| client_search := (None, Some (ExternalErr "no such index"));
       client_scroll := [ScrollPage [hitGood]; ScrollError (ExternalErr "timeout")] |}.

(** A backend whose first page holds a document without its source. *)
Definition esPanicPage : ElasticsearchSource :=
  withClient esGeom
    {| client_search := (None, Some (ExternalErr "no such index"));
       client_scroll := [ScrollPage [hitGood; {| hit_Id := "9"; hit_Source := None |}]] |}.

(** A source whose configuration has an aggregation map naming no
    aggregation ([aggs: {}]), and one declaring the metric "pop". *)
Definition esEmptyAggs : ElasticsearchSource := withAggs esGeom (Some ∅).
Definition esPop : ElasticsearchSource :=
  withAggs esGeom (Some {[ "pop" := "population" ]}).

(** A cell reporting "pop" with avg 3.5, sum 35, count 10; a cell
    without "pop"; a cell where "pop" has no value to average. *)
Definition cellPop : Bucket :=
  {| Key := VString "u09";
     bucket_Aggregations :=
       {[ "pop" := {| Count := 10; Avg := Some 3.5%float; Sum := Some 35%float |} ]} |}.
Definition cellBare : Bucket :=
  {| Key := VString "u0d"; bucket_Aggregations := ∅ |}.
Definition cellNoAvg : Bucket :=
  {| Key := VString "u0f";
     bucket_Aggregations :=
       {[ "pop" := {| Count := 0; Avg := None; Sum := Some 0%float |} ]} |}.

Definition answering (buckets : list Bucket) : Client :=
  {| client_search := (Some {| Aggregations := {[ "cells" := buckets ]} |}, None);
     client_scroll := [] |}.

Definition esCells : ElasticsearchSource :=
  withClient esPop (answering [cellPop; cellBare]).
Definition esNoAvg : ElasticsearchSource :=
  withClient esPop (answering [cellPop; cellNoAvg]).

Definition centre : Geometry := GPoint (6%float, 1%float).

Definition featPop : Feature :=
  {| ID := VString "u09"; Type_ := "Feature"; Geometry_ := Some centre;
     Properties := <["pop:count" := VInt64 10]>
                     (<["pop:sum" := VFloat64 35]>
                        (<["pop:avg" := VFloat64 3.5]> ∅)) |}.
Definition featBare : Feature :=
  {| ID := VString "u0d"; Type_ := "Feature"; Geometry_ := Some centre;
     Properties := ∅ |}.

(** Layer configurations over a PostGIS backend reduced to a name. *)
Definition esConfig0 : ElasticsearchConfig :=
  {| cfg_Host := "localhost"; cfg_Port := 9200; cfg_Index := "places";
     cfg_GeometryField := "geom"; cfg_SourceFields := None; cfg_Aggs := None |}.

Definition layerConfigOf (es : option ElasticsearchConfig) (pg : option string)
  : @LayerConfig string :=
  {| lc_Name := "places"; lc_Description := "All the places";
     lc_Minzoom := 0; lc_Maxzoom := 14;
     lc_Source := {| Elasticsearch := es; PostGIS := pg |} |}.

Definition connectPostGIS (dsn : string) : GoResult string := (Some dsn, None).

(** A backend that is up, and one that cannot be reached. *)
Definition backendUp (_ : ClientOptions) : Client + error := inl client0.
Definition backendDown (_ : ClientOptions) : Client + error :=
  inr (ExternalErr "no Elasticsearch node available").

(** A hit whose source is not JSON, and one without a source. *)
Definition hitBad : SearchHit :=
  {| hit_Id := "4";
     hit_Source := Some (RawInvalid (ExternalErr "unexpected end of JSON input")) |}.
Definition hitNoSource : SearchHit := {| hit_Id := "9"; hit_Source := None |}.

End Samples.

(** * Properties *)

(** ** Nested-path resolution *)

Lemma GetNested_nil (v : value) : GetNested v [] = (v, true).
Proof. reflexivity. Qed.

Lemma GetNested_not_found_nil (v : value) (path : list string) (r : value) :
  GetNested v path = (r, false) → r = VNil.
Proof.
  revert v; induction path as [|k path IH]; intros v; simpl.
  - intros [= _ ?]; discriminate.
  - destruct v as [| | | | | |m]; try (by intros [= <-]).
    destruct (m !! k) as [c|]; [apply IH | by intros [= <-]].
Qed.

(** Resolving a concatenated path resolves its first part, then the rest
    from there; a first part that is not found ends the resolution. *)
Lemma GetNested_app (v : value) (p q : list string) :
  GetNested v (p ++ q) =
    (if snd (GetNested v p) then GetNested (fst (GetNested v p)) q
     else (VNil, false)).
Proof.
  revert v; induction p as [|k p IH]; intros v; simpl; [done|].
  destruct v as [| | | | | |m]; try done.
  destruct (m !! k) as [c|]; [apply IH | done].
Qed.

(** C7: [GetNested] with an empty path returns the current value as found;
    with a first segment [k] it continues in the entry for [k] when the
    value is a mapping holding [k], and is not-found (no error) when [k] is
    absent or the value is not a mapping. Path a.b.c in
    [{"a":{"b":{"c":5}}}] yields (5, found); path a.b in [{"a":1}] is
    not-found. *)
Theorem GetNested_spec :
  (∀ v, GetNested v [] = (v, true)) ∧
  (∀ (m : gmap string value) k ks v,
      m !! k = Some v → GetNested (VMap m) (k :: ks) = GetNested v ks) ∧
  (∀ (m : gmap string value) k ks,
      m !! k = None → GetNested (VMap m) (k :: ks) = (VNil, false)) ∧
  (∀ v k ks, (∀ m, v ≠ VMap m) → GetNested v (k :: ks) = (VNil, false)) ∧
  GetNested Samples.docABC ["a"; "b"; "c"] = (VFloat64 5, true) ∧
  GetNested Samples.docA1 ["a"; "b"] = (VNil, false).
Proof.
  split; [exact GetNested_nil|].
  split; [by intros m k ks v Hk; simpl; rewrite Hk|].
  split; [by intros m k ks Hk; simpl; rewrite Hk|].
  split.
  - intros v k ks Hv. destruct v; try done. by destruct (Hv m).
  - split; vm_compute; reflexivity.
Qed.

Lemma GetNested_spec_witness :
  GetNested (VMap {[ "a" := VFloat64 1 ]}) ["a"; "b"] = GetNested (VFloat64 1) ["b"]
  ∧ GetNested (VString "x") ["a"] = (VNil, false).
Proof.
  split.
  - apply (proj1 (proj2 GetNested_spec)). vm_compute. reflexivity.
  - apply (proj1 (proj2 (proj2 (proj2 GetNested_spec)))). intros m; discriminate.
Defined.

(** ** The bounds filter *)

(** C1: the filter built by [boundsFilter] is a single [geo_shape] clause
    over the configured geometry field, made of exactly a shape and a
    relation; the relation is "intersects" and the shape is exactly an
    envelope whose coordinates are [[left, top], [right, bottom]]. *)
Theorem boundsFilter_envelope (e : ElasticsearchSource) (B : Bound) :
  let q := QDict (boundsFilter e B) in
  let field := GeometryField e in
  QKeys (QGet q []) = Some {[ "geo_shape" ]} ∧
  QKeys (QGet q ["geo_shape"]) = Some {[ field ]} ∧
  QKeys (QGet q ["geo_shape"; field]) = Some {[ "shape"; "relation" ]} ∧
  QGet q ["geo_shape"; field; "relation"] = Some (QString "intersects") ∧
  QKeys (QGet q ["geo_shape"; field; "shape"]) = Some {[ "type"; "coordinates" ]} ∧
  QGet q ["geo_shape"; field; "shape"; "type"] = Some (QString "envelope") ∧
  QGet q ["geo_shape"; field; "shape"; "coordinates"] =
    Some (QCoordinates [[Left B; Top B]; [Right B; Bottom B]]).
Proof.
  cbv zeta. unfold boundsFilter. cbn [QGet QKeys].
  rewrite !lookup_singleton_eq.
  split_and!; cbn [QKeys].
  - by rewrite dom_singleton_L.
  - by rewrite dom_singleton_L.
  - rewrite !dom_insert_L, dom_empty_L. f_equal; set_solver.
  - by rewrite lookup_insert_ne, lookup_insert_eq.
  - rewrite lookup_insert_eq. cbn [QKeys].
    rewrite !dom_insert_L, dom_empty_L. f_equal; set_solver.
  - rewrite lookup_insert_eq. by rewrite lookup_insert_eq.
  - rewrite lookup_insert_eq. by rewrite lookup_insert_ne, lookup_insert_eq.
Qed.

(** ** Mapping one document *)

Lemma Split_nonempty (s : string) (sep : Ascii.ascii) : Split s sep ≠ [].
Proof.
  destruct s as [|c s]; simpl; [done|].
  destruct (Ascii.eqb c sep); [done|]. by destruct (Split s sep).
Qed.

(** The geometry path always has a last segment, after its parent path. *)
Lemma geometryPath_snoc (e : ElasticsearchSource) :
  ∃ lastPart,
    geometryPath e !! (length (geometryPath e) - 1)%nat = Some lastPart ∧
    last (geometryPath e) = Some lastPart ∧
    geometryPath e = (geometryParentPath e ++ [lastPart])%list.
Proof.
  unfold geometryParentPath.
  pose proof (Split_nonempty (GeometryField e) "."%char) as Hne.
  fold (geometryPath e) in Hne.
  destruct (geometryPath e) as [|p ps] using rev_ind; [done|]. clear IHps Hne.
  exists p. rewrite length_app. simpl.
  replace (length ps + 1 - 1)%nat with (length ps) by lia.
  split_and!.
  - by rewrite lookup_app_r, Nat.sub_diag.
  - by rewrite last_snoc.
  - by rewrite take_app_length.
Qed.

(** Deleting below [path] is seen when the same path is resolved again. *)
Lemma GetNested_deleteAt (path : list string) (key : string) (doc : value)
    (parentMap : gmap string value) :
  GetNested doc path = (VMap parentMap, true) →
  GetNested (deleteAt path key doc) path = (VMap (delete key parentMap), true).
Proof.
  revert doc; induction path as [|k path IH]; intros doc; simpl.
  - by intros [= ->].
  - destruct doc as [| | | | | |m]; try done.
    destruct (m !! k) as [child|] eqn:Hk; [|done].
    intros Hchild. simpl. rewrite lookup_insert_eq. by apply IH.
Qed.

Lemma GetNested_deleted (path : list string) (key : string) (doc : value)
    (parentMap : gmap string value) (rest : list string) :
  GetNested doc path = (VMap parentMap, true) →
  GetNested (deleteAt path key doc) (path ++ key :: rest) = (VNil, false).
Proof.
  intros Hparent. rewrite GetNested_app.
  rewrite (GetNested_deleteAt _ _ _ _ Hparent). simpl.
  by rewrite lookup_delete_eq.
Qed.

Lemma GetNested_strippedSource (e : ElasticsearchSource) (source parentMap : gmap string value) :
  GetNested (VMap source) (geometryParentPath e) = (VMap parentMap, true) →
  GetNested (strippedSource e source) (geometryPath e) = (VNil, false).
Proof.
  intros Hparent. unfold strippedSource.
  destruct (geometryPath_snoc e) as (lastPart & _ & Hlast & Hpath).
  rewrite Hlast. rewrite Hpath.
  by apply GetNested_deleted with parentMap.
Qed.

(** The loop over the configured properties sets exactly the properties
    whose path resolves. *)
Lemma mapSourceFields_lookup (source : value) (fields : gmap string string) (prop : string) :
  mapSourceFields source fields !! prop = fields !! prop ≫= resolveField source.
Proof.
  unfold mapSourceFields.
  apply (map_fold_weak_ind (fun props fields =>
           props !! prop = fields !! prop ≫= resolveField source)).
  - by rewrite !lookup_empty.
  - intros p fieldName m props Hfresh IH.
    destruct (decide (p = prop)) as [->|Hne].
    + rewrite lookup_insert_eq. simpl. unfold resolveField.
      destruct (GetNested source (Split fieldName ".")) as [val [|]].
      * by rewrite lookup_insert_eq.
      * rewrite IH, Hfresh. done.
    + rewrite (lookup_insert_ne m) by done. rewrite <- IH.
      destruct (GetNested source (Split fieldName ".")) as [val [|]]; [|done].
      by rewrite lookup_insert_ne.
Qed.

Section HitToFeatureProperties.

Variable UnmarshalGeometry : value -> GoResult Geometry.

(** What a successfully mapped document looks like. *)
Lemma hitToFeature_success (e : ElasticsearchSource) (hit : SearchHit)
    (feat : option Feature) :
  hitToFeature UnmarshalGeometry e hit = Ret (feat, None) →
  ∃ raw source parentMap lastPart geom err,
    hit_Source hit = Some raw ∧
    json_Unmarshal raw = (source, None) ∧
    GetNested (VMap source) (geometryParentPath e) = (VMap parentMap, true) ∧
    last (geometryPath e) = Some lastPart ∧
    UnmarshalGeometry (default VNil (parentMap !! lastPart)) = (Some geom, err) ∧
    feat = Some {| ID := VString (hit_Id hit);
                   Type_ := "Feature";
                   Geometry_ := Some geom;
                   Properties :=
                     <["id" := VString (hit_Id hit)]>
                       (mapSourceFields (strippedSource e source)
                                        (range (SourceFields e))) |}.
Proof.
  unfold hitToFeature, strippedSource. fold (geometryPath e). fold (geometryParentPath e).
  destruct (geometryPath_snoc e) as (lastPart & Hlookup & Hlast & _).
  rewrite Hlookup, Hlast.
  destruct (hit_Source hit) as [raw|]; [|done].
  destruct (json_Unmarshal raw) as [source [err|]] eqn:Hraw; [done|].
  destruct (GetNested (VMap source) (geometryParentPath e)) as [parent [|]] eqn:Hparent;
    [|done].
  simpl. destruct parent as [| | | | | |parentMap]; try done.
  destruct (UnmarshalGeometry _) as [[geom|] err] eqn:Hgeom; [|done].
  intros [= <-]. by exists raw, source, parentMap, lastPart, geom, err.
Qed.

(** Exactly when, and with which error, mapping a document returns an
    error. *)
Lemma hitToFeature_error_iff (e : ElasticsearchSource) (hit : SearchHit)
    (feat : option Feature) (err : error) :
  hitToFeature UnmarshalGeometry e hit = Ret (feat, Some err) ↔
  feat = None ∧
  ∃ raw, hit_Source hit = Some raw ∧
    (snd (json_Unmarshal raw) = Some err ∨
     (snd (json_Unmarshal raw) = None ∧
      snd (GetNested (VMap (fst (json_Unmarshal raw))) (geometryParentPath e)) = false ∧
      err = geometryNotFound (GeometryField e))).
Proof.
  unfold hitToFeature. fold (geometryPath e). fold (geometryParentPath e).
  destruct (geometryPath_snoc e) as (lastPart & Hlookup & _ & _).
  rewrite Hlookup.
  destruct (hit_Source hit) as [raw|].
  2: { split; [done|]. by intros (_ & raw & [=] & _). }
  destruct (json_Unmarshal raw) as [source [err'|]] eqn:Hraw.
  { split.
    - intros [= <- <-]. split; [done|]. exists raw. rewrite Hraw. by auto.
    - intros (-> & raw' & [= <-] & [Herr | (Herr & _)]);
        rewrite Hraw in Herr; simpl in Herr; by simplify_eq. }
  destruct (GetNested (VMap source) (geometryParentPath e)) as [parent [|]] eqn:Hparent;
    simpl.
  2: { split.
       - intros [= <- <-]. split; [done|]. exists raw. rewrite Hraw. simpl.
         rewrite Hparent. by auto.
       - intros (-> & raw' & [= <-] & [Herr | (_ & _ & ->)]); [|done].
         rewrite Hraw in Herr. by simplify_eq. }
  assert (∀ out : Outcome (GoResult Feature),
            (∀ f, out ≠ Ret (f, Some err)) →
            out = Ret (feat, Some err) ↔
            feat = None ∧
            ∃ raw0, Some raw = Some raw0 ∧
              (snd (json_Unmarshal raw0) = Some err ∨
               (snd (json_Unmarshal raw0) = None ∧
                snd (GetNested (VMap (fst (json_Unmarshal raw0)))
                               (geometryParentPath e)) = false ∧
                err = geometryNotFound (GeometryField e)))) as Hno.
  { intros out Hout. split; [by intros ?%Hout|].
    intros (_ & raw' & [= <-] & [Herr | (_ & Hfound & _)]);
      rewrite Hraw in *; simpl in *; [done|].
    rewrite Hparent in Hfound. done. }
  destruct parent as [| | | | | |parentMap]; try (by apply Hno).
  destruct (UnmarshalGeometry _) as [[geom|] err']; by apply Hno.
Qed.

End HitToFeatureProperties.

(** No property of a mapped feature leads to the geometry. *)
Lemma hitToFeature_noGeometryProperty (UnmarshalGeometry : value -> GoResult Geometry)
    (e : ElasticsearchSource) (hit : SearchHit) (feat : Feature) :
  hitToFeature UnmarshalGeometry e hit = Ret (Some feat, None) →
  noGeometryProperty e feat.
Proof.
  intros (raw & source & parentMap & lastPart & geom & err & _ & _ & Hparent & _ & _ & Hfeat)
    %hitToFeature_success.
  injection Hfeat as ->.
  pose proof (GetNested_strippedSource e source parentMap Hparent) as Hgone.
  split_and!; [| |by simpl; rewrite lookup_insert_eq].
  - intros prop fieldName v rest Hfield Hid Hprop Hpath. simpl in Hprop.
    rewrite lookup_insert_ne in Hprop by done.
    rewrite mapSourceFields_lookup, Hfield in Hprop. simpl in Hprop.
    unfold resolveField in Hprop.
    rewrite <- Hpath, GetNested_app in Hgone.
    destruct (GetNested (strippedSource e source) (Split fieldName ".")) as [val [|]];
      [|done].
    by injection Hprop as ->.
  - intros prop fieldName rest Hfield Hid Hpath. simpl.
    rewrite lookup_insert_ne by done.
    rewrite mapSourceFields_lookup, Hfield. simpl.
    unfold resolveField. by rewrite Hpath, GetNested_app, Hgone.
Qed.

(** X20: the errors [hitToFeature] returns, as opposed to its panics.
    It returns an error in two cases only: [json.Unmarshal] rejects the
    document's source (that error is returned; JSON null is accepted and
    leaves a nil map), or the parent container of the geometry field, the
    path without its last segment, does not resolve (the field-not-found
    error naming the geometry field). Neither the decoder nor the
    configured properties decide whether, or which, error is returned,
    and in a returned feature a property other than "id" is present
    exactly when its path resolves in the geometry-stripped document,
    with the value found there. *)
Theorem hitToFeature_errors (UnmarshalGeometry : value -> GoResult Geometry)
    (e : ElasticsearchSource) (hit : SearchHit) :
  (∀ feat err,
      hitToFeature UnmarshalGeometry e hit = Ret (feat, Some err) ↔
      feat = None ∧
      ∃ raw, hit_Source hit = Some raw ∧
        (snd (json_Unmarshal raw) = Some err ∨
         (snd (json_Unmarshal raw) = None ∧
          snd (GetNested (VMap (fst (json_Unmarshal raw))) (geometryParentPath e)) = false ∧
          err = geometryNotFound (GeometryField e)))) ∧
  (∀ decode fields feat err,
      hitToFeature decode (withSourceFields e fields) hit = Ret (feat, Some err) ↔
      hitToFeature UnmarshalGeometry e hit = Ret (feat, Some err)) ∧
  (∀ feat,
      hitToFeature UnmarshalGeometry e hit = Ret (Some feat, None) →
      ∃ raw source,
        hit_Source hit = Some raw ∧ json_Unmarshal raw = (source, None) ∧
        ∀ prop, prop ≠ "id" →
          Properties feat !! prop =
            range (SourceFields e) !! prop ≫= resolveField (strippedSource e source)).
Proof.
  split_and!.
  - intros feat err. apply hitToFeature_error_iff.
  - intros decode fields feat err. by rewrite !hitToFeature_error_iff.
  - intros feat
      (raw & source & parentMap & lastPart & geom & err & Hsrc & Hraw & _ & _ & _ & Hfeat)
      %hitToFeature_success.
    injection Hfeat as ->. exists raw, source. split_and!; [done..|].
    intros prop Hid. simpl. rewrite lookup_insert_ne by done.
    apply mapSourceFields_lookup.
Qed.

(** In [Samples.hitGood] the configured "height" does not resolve: no
    error, and the property is absent while "name" is set. *)
Lemma hitToFeature_errors_witness :
  hitToFeature Samples.decodePoint Samples.esGeom Samples.hitGood
    = Ret (Some Samples.featGood, None) ∧
  Properties Samples.featGood !! "height" = None ∧
  Properties Samples.featGood !! "name" = Some (VString "oak").
Proof.
  assert (hitToFeature Samples.decodePoint Samples.esGeom Samples.hitGood
          = Ret (Some Samples.featGood, None)) as Hrun
    by (vm_compute; reflexivity).
  split; [exact Hrun|].
  destruct (proj2 (proj2 (hitToFeature_errors Samples.decodePoint Samples.esGeom
                            Samples.hitGood)) _ Hrun)
    as (raw & source & Hsrc & Hraw & Hprops).
  injection Hsrc as <-. injection Hraw as <-.
  split.
  - rewrite (Hprops "height") by discriminate. vm_compute. reflexivity.
  - rewrite (Hprops "name") by discriminate. vm_compute. reflexivity.
Defined.

(** C3: the code does not return an error exactly when the configured
    geometry field is unresolvable or its value fails to decode. In the
    document [{"geom":"garbage"}] the value at the geometry field "geom"
    fails to decode, and in the document [{}] the field is unresolvable;
    for neither is an error returned, whatever the decoder. The decoder's
    error is discarded and only the parent container of the field is
    looked up, so that with a decoder rejecting both values, as
    [geojson.UnmarshalGeometry] does, the nil geometry is dereferenced
    and the call panics. *)
Theorem hitToFeature_failures_unreported :
  (hit_Source Samples.hitGarbage
     = Some (RawValue (VMap {[ "geom" := VString "garbage" ]})) ∧
   geometryUndecodable Samples.decodePoint Samples.esGeom
     {[ "geom" := VString "garbage" ]} ∧
   hitToFeature Samples.decodePoint Samples.esGeom Samples.hitGarbage
     = Panic NilDereference ∧
   (∀ UnmarshalGeometry,
      ¬ returnsError (hitToFeature UnmarshalGeometry Samples.esGeom Samples.hitGarbage)) ∧
   ¬ (returnsError (hitToFeature Samples.decodePoint Samples.esGeom Samples.hitGarbage)
      ↔ geometryUnresolvable Samples.esGeom {[ "geom" := VString "garbage" ]}
        ∨ geometryUndecodable Samples.decodePoint Samples.esGeom
            {[ "geom" := VString "garbage" ]})) ∧
  (hit_Source Samples.hitNoGeom = Some (RawValue (VMap ∅)) ∧
   geometryUnresolvable Samples.esGeom ∅ ∧
   hitToFeature Samples.decodePoint Samples.esGeom Samples.hitNoGeom
     = Panic NilDereference ∧
   (∀ UnmarshalGeometry,
      ¬ returnsError (hitToFeature UnmarshalGeometry Samples.esGeom Samples.hitNoGeom)) ∧
   ¬ (returnsError (hitToFeature Samples.decodePoint Samples.esGeom Samples.hitNoGeom)
      ↔ geometryUnresolvable Samples.esGeom ∅
        ∨ geometryUndecodable Samples.decodePoint Samples.esGeom ∅)).
Proof.
  assert (∀ UnmarshalGeometry,
            ¬ returnsError (hitToFeature UnmarshalGeometry Samples.esGeom
                              Samples.hitGarbage)) as Hgarbage.
  { intros UnmarshalGeometry (feat & err & Hout).
    apply hitToFeature_error_iff in Hout as (_ & raw & [= <-] & [Herr | (_ & Hfound & _)]).
    - vm_compute in Herr. discriminate.
    - vm_compute in Hfound. discriminate. }
  assert (∀ UnmarshalGeometry,
            ¬ returnsError (hitToFeature UnmarshalGeometry Samples.esGeom
                              Samples.hitNoGeom)) as Habsent.
  { intros UnmarshalGeometry (feat & err & Hout).
    apply hitToFeature_error_iff in Hout as (_ & raw & [= <-] & [Herr | (_ & Hfound & _)]).
    - vm_compute in Herr. discriminate.
    - vm_compute in Hfound. discriminate. }
  split; split_and!.
  - reflexivity.
  - vm_compute. discriminate.
  - vm_compute. reflexivity.
  - exact Hgarbage.
  - intros [_ Hreturns]. apply (Hgarbage Samples.decodePoint), Hreturns.
    right. vm_compute. discriminate.
  - reflexivity.
  - vm_compute. reflexivity.
  - vm_compute. reflexivity.
  - exact Habsent.
  - intros [_ Hreturns]. apply (Habsent Samples.decodePoint), Hreturns.
    left. vm_compute. reflexivity.
Qed.

(** ** The raw-feature retrieval loop *)

Lemma runDeferred_world (defers : list nat) (w : World) :
  live (runDeferred defers w) = live w ∖ list_to_set defers ∧
  next_timer (runDeferred defers w) = next_timer w ∧
  calls (runDeferred defers w) = calls w ∧
  logs (runDeferred defers w) = logs w.
Proof.
  unfold runDeferred. revert w; induction defers as [|t defers IH]; intros w; simpl.
  - split_and!; [set_solver|done..].
  - destruct (IH (cancel t w)) as (-> & -> & -> & ->). simpl.
    split_and!; [set_solver|done..].
Qed.

Section RetrievalProperties.

Variable UnmarshalGeometry : value -> GoResult Geometry.
Variable Tile_Bound : Tile -> Bound.
Variable geohash_BoundingBox : string -> Box.

#[local] Abbreviation mapsTo := (mapsTo UnmarshalGeometry).

Lemma extend_nil (fc : FeatureCollection) : extend fc [] = fc.
Proof. destruct fc. unfold extend. simpl. by rewrite app_nil_r. Qed.

Lemma extend_app (fc : FeatureCollection) (fs gs : list Feature) :
  extend (extend fc fs) gs = extend fc (fs ++ gs).
Proof. unfold extend. simpl. by rewrite fmap_app, app_assoc. Qed.

Lemma appendHits_ok (e : ElasticsearchSource) (hits : list SearchHit)
    (feats : list Feature) (fc : FeatureCollection) :
  Forall2 (mapsTo e) hits feats →
  appendHits UnmarshalGeometry e hits fc = Ret (inl (extend fc feats)).
Proof.
  intros Hall. revert fc. induction Hall as [|hit feat hits feats Hhit _ IH]; intros fc.
  - by rewrite extend_nil.
  - simpl. rewrite Hhit, IH. do 2 f_equal. apply (extend_app fc [feat] feats).
Qed.

Lemma appendHits_error (e : ElasticsearchSource) (hits hits' : list SearchHit)
    (feats : list Feature) (hit : SearchHit) (x : option Feature) (err : error)
    (fc : FeatureCollection) :
  Forall2 (mapsTo e) hits feats →
  hitToFeature UnmarshalGeometry e hit = Ret (x, Some err) →
  appendHits UnmarshalGeometry e (hits ++ hit :: hits') fc = Ret (inr err).
Proof.
  intros Hall Herr. revert fc. induction Hall as [|h f hs fs Hh _ IH]; intros fc; simpl.
  - by rewrite Herr.
  - by rewrite Hh, IH.
Qed.

(** Whatever a page appends was mapped from one of its documents. *)
Lemma appendHits_inv (e : ElasticsearchSource) (hits : list SearchHit)
    (fc fc' : FeatureCollection) :
  appendHits UnmarshalGeometry e hits fc = Ret (inl fc') →
  ∃ feats, Forall2 (mapsTo e) hits feats ∧ fc' = extend fc feats.
Proof.
  revert fc; induction hits as [|hit hits IH]; intros fc; simpl.
  - intros [= <-]. exists []. by rewrite extend_nil.
  - destruct (hitToFeature UnmarshalGeometry e hit) as [[feat [err|]]|] eqn:Hhit;
      [done| |done].
    intros (feats & Hall & ->)%IH.
    apply hitToFeature_success in Hhit as Hfeat.
    destruct Hfeat as (? & ? & ? & ? & ? & ? & _ & _ & _ & _ & _ & ->).
    eexists (_ :: feats). split; [by constructor|].
    apply (extend_app fc [_] feats).
Qed.

(** The pages that map without error are consumed one by one. *)
Lemma scrollLoop_pages (e : ElasticsearchSource) (ctx : Context) (scroll : ScrollService)
    (pages : list (list SearchHit)) (featss : list (list Feature))
    (rest : list ScrollResponse) :
  Forall2 (Forall2 (mapsTo e)) pages featss →
  ∀ fc defers w, ∃ defers' w',
    scrollLoop UnmarshalGeometry e ctx scroll ((ScrollPage <$> pages) ++ rest) fc defers w =
    scrollLoop UnmarshalGeometry e ctx scroll rest (extend fc (concat featss)) defers' w'.
Proof.
  induction 1 as [|hits feats pages featss Hpage _ IH]; intros fc defers w.
  - exists defers, w. simpl. by rewrite extend_nil.
  - simpl. rewrite (appendHits_ok _ _ _ _ Hpage).
    edestruct IH as (defers' & w' & ->). exists defers', w'.
    by rewrite extend_app.
Qed.

(** The effects of the loop: each page fetched acquires one timer and
    issues one call; the timers still live afterwards are among those of
    the cancel functions deferred by the loop. *)
Lemma scrollLoop_world (e : ElasticsearchSource) (ctx : Context) (scroll : ScrollService)
    (answers : list ScrollResponse) :
  ∀ fc defers w out defers' w',
    scrollLoop UnmarshalGeometry e ctx scroll answers fc defers w = Some (out, defers', w') →
    ∃ (new : list nat) (cs : list Call) (ls : list LogMsg),
      defers' = new ++ defers ∧
      next_timer w' = next_timer w + length new ∧
      (∀ t, next_timer w ≤ t < next_timer w' → t ∈ new) ∧
      (∀ t, t ∈ live w' → t ∈ live w ∨ t ∈ new) ∧
      calls w' = calls w ++ cs ∧ length cs = length new ∧
      logs w' = logs w ++ ls.
Proof.
  induction answers as [|answer answers IH]; intros fc defers w out defers' w';
    [done|].
  simpl.
  pose (c := ScrollDo scroll {| ctx_values := ctx_values ctx;
                                ctx_timers := next_timer w :: ctx_timers ctx |}).
  assert (∀ ls : list LogMsg, ∃ (new : list nat) (cs : list Call) (ls' : list LogMsg),
            next_timer w :: defers = new ++ defers ∧
            S (next_timer w) = next_timer w + length new ∧
            (∀ t, next_timer w ≤ t < S (next_timer w) → t ∈ new) ∧
            (∀ t, t ∈ ({[next_timer w]} ∪ live w : gset nat) → t ∈ live w ∨ t ∈ new) ∧
            calls w ++ [c] = calls w ++ cs ∧ length cs = length new ∧
            logs w ++ ls = logs w ++ ls') as Hstop.
  { intros ls. exists [next_timer w], [c], ls. split_and!; try done.
    - simpl. lia.
    - intros t Ht. assert (t = next_timer w) as -> by lia. set_solver.
    - set_solver. }
  destruct answer as [hits|err].
  - destruct (appendHits UnmarshalGeometry e hits fc) as [[fc1|err]|p].
    + intros (new & cs & ls & -> & Hnext & Hnew & Hlive & Hcalls & Hlen & Hlogs)%IH.
      simpl in *.
      exists (new ++ [next_timer w]), (c :: cs),
        (Debugf "Scrolling %d hits" [ArgInt (Z.of_nat (length hits))] :: ls).
      rewrite length_app. simpl. split_and!.
      * by rewrite <- app_assoc.
      * lia.
      * intros t Ht. destruct (decide (t = next_timer w)) as [->|]; [set_solver|].
        apply elem_of_app. left. apply Hnew. lia.
      * intros t [Ht|Ht]%Hlive; set_solver.
      * by rewrite Hcalls, <- app_assoc.
      * lia.
      * by rewrite Hlogs, <- app_assoc.
    + intros [= <- <- <-]. simpl. apply Hstop.
    + intros [= <- <- <-]. simpl. apply Hstop.
  - specialize (Hstop []). rewrite app_nil_r in Hstop.
    destruct (decide (err = io_EOF)); intros [= <- <- <-]; simpl; apply Hstop.
Qed.

End RetrievalProperties.

Section RawRetrieval.

Variable UnmarshalGeometry : value -> GoResult Geometry.
Variable Tile_Bound : Tile -> Bound.
Variable geohash_BoundingBox : string -> Box.

#[local] Abbreviation mapsTo := (mapsTo UnmarshalGeometry).

(** The features a finished loop returns were all mapped from documents. *)
Lemma scrollLoop_inv (e : ElasticsearchSource) (ctx : Context) (scroll : ScrollService)
    (answers : list ScrollResponse) :
  ∀ fc defers w fc' defers' w',
    scrollLoop UnmarshalGeometry e ctx scroll answers fc defers w
      = Some (Ret (Some fc', None), defers', w') →
    ∃ hits feats, Forall2 (mapsTo e) hits feats ∧ fc' = extend fc feats.
Proof.
  induction answers as [|answer answers IH]; intros fc defers w fc' defers' w'; [done|].
  simpl. destruct answer as [hits|err].
  - destruct (appendHits UnmarshalGeometry e hits fc) as [[fc1|err]|p] eqn:Hpage;
      [|done..].
    apply appendHits_inv in Hpage as (feats & Hfeats & ->).
    intros (hits' & feats' & Hfeats' & ->)%IH.
    exists (hits ++ hits'), (feats ++ feats'). split; [by apply Forall2_app|].
    apply extend_app.
  - destruct (decide (err = io_EOF)); [|done].
    intros [= <- _ _]. exists [], []. split; [constructor|]. by rewrite extend_nil.
Qed.

(** C10: when the context does not carry a [maptile.Tile] under "tile",
    both retrieval paths panic on the type assertion, leaving the world
    as it was: no backend call has been issued. *)
Theorem tile_assertion_panics (e : ElasticsearchSource) (ctx : Context) (w : World) :
  (∀ tile, ctx_Value ctx "tile" ≠ Some (CtxTile tile)) →
  doGetFeatures UnmarshalGeometry Tile_Bound e ctx w = Some (Panic TypeAssertionFailed, w) ∧
  doGetAggregates Tile_Bound geohash_BoundingBox e ctx w = (Panic TypeAssertionFailed, w).
Proof.
  intros Hno. unfold doGetFeatures, doGetAggregates.
  destruct (ctx_Value ctx "tile") as [[tile|v]|]; [by destruct (Hno tile)|done..].
Qed.

(** C9: the timer acquired for a page is released on every way out of
    that page's handling. When the page is mapped to the end, its timer
    is released before the next page is fetched; and however
    [doGetFeatures] ends (end of results, error or panic), none of the
    timers handed out during the retrieval is live afterwards and nothing
    is live that was not live before, each page fetched having had a
    timer of its own. *)
Theorem doGetFeatures_releases (e : ElasticsearchSource) (ctx : Context) :
  (∀ scroll hits answers fc fc1 defers w,
      appendHits UnmarshalGeometry e hits fc = Ret (inl fc1) →
      ∃ w1,
        scrollLoop UnmarshalGeometry e ctx scroll (ScrollPage hits :: answers) fc defers w =
        scrollLoop UnmarshalGeometry e ctx scroll answers fc1 (next_timer w :: defers) w1 ∧
        live w1 = live w ∖ {[next_timer w]} ∧
        next_timer w1 = S (next_timer w)) ∧
  (∀ w w' out,
      doGetFeatures UnmarshalGeometry Tile_Bound e ctx w = Some (out, w') →
      live w' ⊆ live w ∧
      (∀ t, next_timer w ≤ t < next_timer w' → t ∉ live w') ∧
      length (calls w') - length (calls w) = next_timer w' - next_timer w).
Proof.
  split.
  - intros scroll hits answers fc fc1 defers w Hpage. simpl. rewrite Hpage.
    eexists. split; [done|]. simpl. split; [set_solver|done].
  - intros w w' out. unfold doGetFeatures.
    destruct (ctx_Value ctx "tile") as [[tile|v]|].
    2,3: intros [= <- <-]; split_and!; [done|lia|lia].
    destruct (scrollLoop _ _ _ _ _ _ _ _) as [[[out1 defers] w1]|] eqn:Hloop; [|done].
    intros [= <- <-].
    apply scrollLoop_world in Hloop
      as (new & cs & ls & -> & Hnext & Hnew & Hlive & Hcalls & Hlen & _).
    rewrite app_nil_r. simpl in *.
    destruct (runDeferred_world new w1) as (-> & -> & -> & _).
    split_and!.
    + intros t [Ht Hnot]%elem_of_difference.
      destruct (Hlive t Ht) as [?|Hin]; [done|].
      destruct Hnot. by apply elem_of_list_to_set.
    + intros t Ht [_ Hnot]%elem_of_difference.
      destruct Hnot. apply elem_of_list_to_set. by apply Hnew.
    + rewrite Hcalls, length_app. lia.
Qed.

(** C2: when the backend answers with pages whose documents all map,
    then (1) on the end-of-results signal the retrieval returns the
    collection of their features, one per document in arrival order;
    (2) on any other error instead, it returns that error and a nil
    collection; (3) on a further page holding a document whose mapping
    returns an error, it returns that error and a nil collection. *)
Theorem doGetFeatures_pages (e : ElasticsearchSource) (ctx : Context) (tile : Tile)
    (w : World) (pages : list (list SearchHit)) (featss : list (list Feature))
    (rest : list ScrollResponse) :
  ctx_Value ctx "tile" = Some (CtxTile tile) →
  Forall2 (Forall2 (mapsTo e)) pages featss →
  (client_scroll (ES e) = (ScrollPage <$> pages) ++ ScrollError io_EOF :: rest →
   fst <$> doGetFeatures UnmarshalGeometry Tile_Bound e ctx w =
     Some (Ret (Some {| fc_Type := "FeatureCollection";
                        Features := Some <$> concat featss |}, None))) ∧
  (∀ err, err ≠ io_EOF →
     client_scroll (ES e) = (ScrollPage <$> pages) ++ ScrollError err :: rest →
     fst <$> doGetFeatures UnmarshalGeometry Tile_Bound e ctx w = Some (Ret (None, Some err))) ∧
  (∀ hits feats hit hits' x err,
     Forall2 (mapsTo e) hits feats →
     hitToFeature UnmarshalGeometry e hit = Ret (x, Some err) →
     client_scroll (ES e) =
       (ScrollPage <$> pages) ++ ScrollPage (hits ++ hit :: hits') :: rest →
     fst <$> doGetFeatures UnmarshalGeometry Tile_Bound e ctx w = Some (Ret (None, Some err))).
Proof.
  intros Htile Hpages. unfold doGetFeatures. rewrite Htile.
  split_and!.
  - intros ->.
    edestruct (scrollLoop_pages UnmarshalGeometry e ctx) as (defers' & w' & ->);
      [exact Hpages|].
    simpl. done.
  - intros err Herr ->.
    edestruct (scrollLoop_pages UnmarshalGeometry e ctx) as (defers' & w' & ->);
      [exact Hpages|].
    cbn [scrollLoop WithTimeout]. by rewrite decide_False.
  - intros hits feats hit hits' x err Hhits Hhit ->.
    edestruct (scrollLoop_pages UnmarshalGeometry e ctx) as (defers' & w' & ->);
      [exact Hpages|].
    simpl. by rewrite (appendHits_error _ _ _ _ _ _ _ _ _ Hhits Hhit).
Qed.

(** C5: no feature returned by the raw-feature path holds the geometry
    field among its properties: a property configured with the geometry
    field itself (or with a path below it) is absent, a property
    configured with a container of the geometry field holds that
    container without the geometry, and "id" holds the identifier. *)
Theorem doGetFeatures_no_geometry_property (e : ElasticsearchSource) (ctx : Context)
    (w w' : World) (fc : FeatureCollection) :
  doGetFeatures UnmarshalGeometry Tile_Bound e ctx w = Some (Ret (Some fc, None), w') →
  ∀ f, f ∈ Features fc → ∃ feat, f = Some feat ∧ noGeometryProperty e feat.
Proof.
  unfold doGetFeatures.
  destruct (ctx_Value ctx "tile") as [[tile|v]|]; [|done..].
  destruct (scrollLoop _ _ _ _ _ _ _ _) as [[[out1 defers] w1]|] eqn:Hloop; [|done].
  intros [= -> _].
  apply scrollLoop_inv in Hloop as (hits & feats & Hfeats & ->).
  intros f Hf. simpl in Hf. apply list_elem_of_fmap in Hf as (feat & -> & Hfeat).
  exists feat. split; [done|].
  apply list_elem_of_lookup in Hfeat as (i & Hi).
  destruct (Forall2_lookup_r _ _ _ _ _ Hfeats Hi) as (hit & _ & Hhit).
  by apply (hitToFeature_noGeometryProperty UnmarshalGeometry e hit).
Qed.

End RawRetrieval.

Lemma tile_assertion_panics_witness :
  doGetFeatures Samples.decodePoint Samples.unitBound Samples.esOnePage
    Samples.ctxEmpty Samples.world0 = Some (Panic TypeAssertionFailed, Samples.world0) ∧
  doGetAggregates Samples.unitBound Samples.unitBox Samples.esOnePage
    Samples.ctxEmpty Samples.world0 = (Panic TypeAssertionFailed, Samples.world0).
Proof.
  apply tile_assertion_panics. intros tile. vm_compute. discriminate.
Defined.

(** A retrieval ended by a fetch error after one page, and one ended by a
    panic in the first page: two timers, respectively one, were handed
    out, and none is live afterwards. *)
Lemma doGetFeatures_releases_witness :
  (∃ w', doGetFeatures Samples.decodePoint Samples.unitBound Samples.esBrokenPage
           Samples.ctxWithTile Samples.world0
         = Some (Ret (None, Some (ExternalErr "timeout")), w') ∧
         next_timer w' = 2 ∧ live w' ⊆ ∅) ∧
  (∃ w', doGetFeatures Samples.decodePoint Samples.unitBound Samples.esPanicPage
           Samples.ctxWithTile Samples.world0
         = Some (Panic NilDereference, w') ∧
         next_timer w' = 1 ∧ live w' ⊆ ∅).
Proof.
  split.
  - exists (worldAfter (doGetFeatures Samples.decodePoint Samples.unitBound
                          Samples.esBrokenPage Samples.ctxWithTile Samples.world0)
                       Samples.world0).
    assert (doGetFeatures Samples.decodePoint Samples.unitBound Samples.esBrokenPage
              Samples.ctxWithTile Samples.world0
            = Some (Ret (None, Some (ExternalErr "timeout")),
                    worldAfter (doGetFeatures Samples.decodePoint Samples.unitBound
                                  Samples.esBrokenPage Samples.ctxWithTile Samples.world0)
                               Samples.world0)) as Hrun
      by (vm_compute; reflexivity).
    split; [exact Hrun|]. split; [vm_compute; reflexivity|].
    exact (proj1 (proj2 (doGetFeatures_releases _ _ _ _) _ _ _ Hrun)).
  - exists (worldAfter (doGetFeatures Samples.decodePoint Samples.unitBound
                          Samples.esPanicPage Samples.ctxWithTile Samples.world0)
                       Samples.world0).
    assert (doGetFeatures Samples.decodePoint Samples.unitBound Samples.esPanicPage
              Samples.ctxWithTile Samples.world0
            = Some (Panic NilDereference,
                    worldAfter (doGetFeatures Samples.decodePoint Samples.unitBound
                                  Samples.esPanicPage Samples.ctxWithTile Samples.world0)
                               Samples.world0)) as Hrun
      by (vm_compute; reflexivity).
    split; [exact Hrun|]. split; [vm_compute; reflexivity|].
    exact (proj1 (proj2 (doGetFeatures_releases _ _ _ _) _ _ _ Hrun)).
Defined.

Lemma doGetFeatures_pages_witness :
  fst <$> doGetFeatures Samples.decodePoint Samples.unitBound Samples.esOnePage
            Samples.ctxWithTile Samples.world0
  = Some (Ret (Some {| fc_Type := "FeatureCollection";
                       Features := [Some Samples.featGood] |}, None)).
Proof.
  assert (Forall2 (Forall2 (mapsTo Samples.decodePoint Samples.esOnePage))
            [[Samples.hitGood]] [[Samples.featGood]]) as Hpages.
  { constructor; [|constructor].
    constructor; [|constructor]. vm_compute. reflexivity. }
  exact (proj1 (doGetFeatures_pages Samples.decodePoint Samples.unitBound
                  Samples.esOnePage Samples.ctxWithTile Samples.tile0 Samples.world0
                  [[Samples.hitGood]] [[Samples.featGood]] [] eq_refl Hpages) eq_refl).
Defined.

(** The feature of [Samples.hitGood] has no "shape" property although
    "shape" is configured with the geometry field. *)
Lemma doGetFeatures_no_geometry_property_witness :
  noGeometryProperty Samples.esOnePage Samples.featGood ∧
  Properties Samples.featGood !! "shape" = None.
Proof.
  split; [|vm_compute; reflexivity].
  assert (doGetFeatures Samples.decodePoint Samples.unitBound Samples.esOnePage
            Samples.ctxWithTile Samples.world0
          = Some (Ret (Some {| fc_Type := "FeatureCollection";
                               Features := [Some Samples.featGood] |}, None),
                  worldAfter (doGetFeatures Samples.decodePoint Samples.unitBound
                                Samples.esOnePage Samples.ctxWithTile Samples.world0)
                             Samples.world0)) as Hrun
    by (vm_compute; reflexivity).
  destruct (doGetFeatures_no_geometry_property _ _ _ _ _ _ _ Hrun (Some Samples.featGood))
    as (feat & Heq & Hfeat); [apply list_elem_of_here|].
  apply (inj Some) in Heq. by rewrite Heq.
Defined.

(** ** Choosing the retrieval path *)

Section Dispatch.

Variable UnmarshalGeometry : value -> GoResult Geometry.
Variable Tile_Bound : Tile -> Bound.
Variable geohash_BoundingBox : string -> Box.

Lemma doGetAggregates_logs (e : ElasticsearchSource) (ctx : Context) (w : World) :
  logs (snd (doGetAggregates Tile_Bound geohash_BoundingBox e ctx w)) = logs w.
Proof.
  unfold doGetAggregates.
  destruct (ctx_Value ctx "tile") as [[tile|v]|]; [|done..].
  destruct (client_search (ES e)) as [[results|] [err|]]; [done| |done..].
  destruct (Aggregations results !! "cells") as [buckets|]; [|done].
  by destruct (appendBuckets _ _ _ _).
Qed.

Lemma doGetFeatures_logs (e : ElasticsearchSource) (ctx : Context) (w w' : World)
    (out : Outcome (GoResult FeatureCollection)) :
  doGetFeatures UnmarshalGeometry Tile_Bound e ctx w = Some (out, w') →
  ∃ ls, logs w' = logs w ++ ls.
Proof.
  unfold doGetFeatures.
  destruct (ctx_Value ctx "tile") as [[tile|v]|].
  2,3: intros [= _ <-]; exists []; by rewrite app_nil_r.
  destruct (scrollLoop _ _ _ _ _ _ _ _) as [[[out1 defers] w1]|] eqn:Hloop; [|done].
  intros [= _ <-].
  apply scrollLoop_world in Hloop as (_ & _ & ls & _ & _ & _ & _ & _ & _ & Hlogs).
  destruct (runDeferred_world defers w1) as (_ & _ & _ & ->).
  simpl in Hlogs. rewrite Hlogs, <- app_assoc. by eexists.
Qed.

(** The two paths cannot be mistaken for one another: they log
    different lines. *)
Lemma paths_differ (e : ElasticsearchSource) (ctx : Context) (w : World) :
  doGetFeatures UnmarshalGeometry Tile_Bound e ctx (Logger_Debugf "Running hit query" [] w)
  ≠ Some (doGetAggregates Tile_Bound geohash_BoundingBox e ctx
            (Logger_Debugf "Running aggregate query" [] w)).
Proof.
  intros Heq.
  pose proof (doGetAggregates_logs e ctx (Logger_Debugf "Running aggregate query" [] w))
    as Hagg.
  destruct (doGetAggregates _ _ _ _ _) as [out w'].
  apply doGetFeatures_logs in Heq as (ls & Hhit).
  simpl in *. rewrite Hagg, <- app_assoc in Hhit.
  apply app_inv_head in Hhit. discriminate.
Qed.

(** C6 (as amended): [GetFeatures] takes the aggregation path exactly
    when the source's aggregation map is non-nil, in particular
    whenever one or more aggregations are declared, and the raw-feature
    path exactly when that map is nil. *)
Theorem GetFeatures_dispatch (e : ElasticsearchSource) (ctx : Context) (w : World) :
  (takesAggregationPath UnmarshalGeometry Tile_Bound geohash_BoundingBox e ctx w
     ↔ Aggs e ≠ None) ∧
  (takesRawPath UnmarshalGeometry Tile_Bound geohash_BoundingBox e ctx w
     ↔ Aggs e = None) ∧
  (declaresAggregations e →
   takesAggregationPath UnmarshalGeometry Tile_Bound geohash_BoundingBox e ctx w).
Proof.
  unfold takesAggregationPath, takesRawPath, declaresAggregations, GetFeatures.
  destruct (Aggs e) as [aggs|]; split_and!; try done.
  - split; [|done]. intros Heq. symmetry in Heq. by apply paths_differ in Heq.
  - split; [|done]. intros Heq. by apply paths_differ in Heq.
  - intros (name & field & Hfield). simpl in Hfield. by rewrite lookup_empty in Hfield.
Qed.

End Dispatch.

Lemma GetFeatures_dispatch_witness :
  takesAggregationPath Samples.decodePoint Samples.unitBound Samples.unitBox
    Samples.esPop Samples.ctxWithTile Samples.world0.
Proof.
  apply GetFeatures_dispatch. exists "pop", "population". vm_compute. reflexivity.
Defined.

(** C6 (as stated) fails: a source configured with an empty aggregation
    map declares no aggregation, yet is served by the aggregation path. *)
Lemma GetFeatures_dispatch_counterexample :
  ¬ (takesAggregationPath Samples.decodePoint Samples.unitBound Samples.unitBox
       Samples.esEmptyAggs Samples.ctxWithTile Samples.world0
     ↔ declaresAggregations Samples.esEmptyAggs).
Proof.
  intros [Hdeclared _].
  destruct Hdeclared as (name & field & Hfield); [reflexivity|].
  vm_compute in Hfield. discriminate.
Qed.

(** ** The aggregation path *)

Lemma list_ascii_of_append (a b : string) :
  String.list_ascii_of_string (a +:+ b) =
  String.list_ascii_of_string a ++ String.list_ascii_of_string b.
Proof. induction a as [|c a IH]; simpl; [done|]. by rewrite IH. Qed.

(** The property keys of distinct metrics or distinct statistics never
    collide, whatever the metric names are. *)
Lemma statKey_inj (a b sfx1 sfx2 : string) :
  a +:+ sfx1 = b +:+ sfx2 →
  sfx1 ∈ statSuffixes → sfx2 ∈ statSuffixes →
  a = b ∧ sfx1 = sfx2.
Proof.
  intros Heq H1 H2.
  apply (f_equal String.list_ascii_of_string) in Heq.
  rewrite !list_ascii_of_append in Heq.
  assert (∀ x y, String.list_ascii_of_string x = String.list_ascii_of_string y → x = y)
    as Hinj.
  { intros x y Hxy. rewrite <- (String.string_of_list_ascii_of_string x), Hxy.
    apply String.string_of_list_ascii_of_string. }
  unfold statSuffixes in *.
  repeat (apply elem_of_cons in H1 as [->|H1]); [..|by apply elem_of_nil in H1];
    repeat (apply elem_of_cons in H2 as [->|H2]); try (by apply elem_of_nil in H2);
    try (apply app_inv_tail in Heq; split; [by apply Hinj|done]);
    apply (f_equal (@rev Ascii.ascii)) in Heq; rewrite !rev_app_distr in Heq; simpl in Heq;
    discriminate.
Qed.

Ltac stat_absurd :=
  match goal with
  | H : _ +:+ _ = _ +:+ _ |- _ =>
      destruct (statKey_inj _ _ _ _ H) as [? ?];
      [unfold statSuffixes; set_solver .. | congruence]
  end.

Ltac stat_lookup :=
  rewrite ?lookup_insert; repeat case_decide; try done; try (exfalso; stat_absurd).

(** The properties collected for one cell. *)
Lemma bucketProperties_spec (aggs : gmap string string) (bucket : Bucket) :
  (∀ name stats,
      is_Some (aggs !! name) →
      bucket_Aggregations bucket !! name = Some stats →
      is_Some (Avg stats) ∧ is_Some (Sum stats)) →
  ∃ props,
    bucketProperties aggs bucket ∅ = Ret props ∧
    (∀ name stats,
        is_Some (aggs !! name) →
        bucket_Aggregations bucket !! name = Some stats →
        ∃ avg sum,
          Avg stats = Some avg ∧ Sum stats = Some sum ∧
          props !! (name +:+ ":avg") = Some (VFloat64 avg) ∧
          props !! (name +:+ ":sum") = Some (VFloat64 sum) ∧
          props !! (name +:+ ":count") = Some (VInt64 (Count stats))) ∧
    (∀ k, is_Some (props !! k) →
          ∃ name sfx,
            is_Some (aggs !! name) ∧
            is_Some (bucket_Aggregations bucket !! name) ∧
            sfx ∈ statSuffixes ∧ k = name +:+ sfx).
Proof.
  unfold bucketProperties.
  apply (map_fold_weak_ind (fun acc (m : gmap string string) =>
    (∀ name stats,
        is_Some (m !! name) →
        bucket_Aggregations bucket !! name = Some stats →
        is_Some (Avg stats) ∧ is_Some (Sum stats)) →
    ∃ props,
      acc = Ret props ∧
      (∀ name stats,
          is_Some (m !! name) →
          bucket_Aggregations bucket !! name = Some stats →
          ∃ avg sum,
            Avg stats = Some avg ∧ Sum stats = Some sum ∧
            props !! (name +:+ ":avg") = Some (VFloat64 avg) ∧
            props !! (name +:+ ":sum") = Some (VFloat64 sum) ∧
            props !! (name +:+ ":count") = Some (VInt64 (Count stats))) ∧
      (∀ k, is_Some (props !! k) →
            ∃ name sfx,
              is_Some (m !! name) ∧
              is_Some (bucket_Aggregations bucket !! name) ∧
              sfx ∈ statSuffixes ∧ k = name +:+ sfx))).
  - intros _. exists ∅. split; [done|]. split.
    + intros name stats [x Hx]. by rewrite lookup_empty in Hx.
    + intros k [x Hx]. by rewrite lookup_empty in Hx.
  - intros i field m acc Hfresh IH Hreports.
    destruct IH as (props & -> & Hset & Honly).
    { intros name stats Hname. apply Hreports.
      apply lookup_insert_is_Some'. by right. }
    destruct (bucket_Aggregations bucket !! i) as [stats|] eqn:Hi.
    + destruct (Hreports i stats) as [[avg Havg] [sum Hsum]];
        [by rewrite lookup_insert_eq|done|].
      rewrite Havg, Hsum. eexists. split; [done|]. split.
      * intros name stats' Hname Hstats'.
        destruct (decide (name = i)) as [->|Hne].
        -- rewrite Hi in Hstats'. injection Hstats' as <-.
           exists avg, sum. split_and!; [done..| | |]; stat_lookup.
        -- rewrite lookup_insert_ne in Hname by done.
           destruct (Hset name stats' Hname Hstats')
             as (avg' & sum' & ? & ? & ? & ? & ?).
           exists avg', sum'. split_and!; [done..| | |]; stat_lookup.
      * intros k Hk.
        apply lookup_insert_is_Some' in Hk as [<-|Hk];
          [exists i, ":count"|
           apply lookup_insert_is_Some' in Hk as [<-|Hk];
           [exists i, ":sum"|
            apply lookup_insert_is_Some' in Hk as [<-|Hk];
            [exists i, ":avg"|]]].
        1-3: split_and!; [by rewrite lookup_insert_eq|done|
                          unfold statSuffixes; set_solver|done].
        destruct (Honly k Hk) as (name & sfx & Hname & ? & ? & ?).
        exists name, sfx. split_and!; [|done..].
        apply lookup_insert_is_Some'. by right.
    + exists props. split; [done|]. split.
      * intros name stats' Hname Hstats'.
        destruct (decide (name = i)) as [->|Hne]; [congruence|].
        rewrite lookup_insert_ne in Hname by done. by apply Hset.
      * intros k Hk. destruct (Honly k Hk) as (name & sfx & Hname & ? & ? & ?).
        exists name, sfx. split_and!; [|done..].
        apply lookup_insert_is_Some'. by right.
Qed.

Section Aggregation.

Variable Tile_Bound : Tile -> Bound.
Variable geohash_BoundingBox : string -> Box.

Lemma bucketToFeature_spec (aggs : gmap string string) (bucket : Bucket) :
  reportsValues aggs bucket →
  ∃ feat,
    bucketToFeature geohash_BoundingBox aggs bucket = Ret feat ∧
    cellFeature geohash_BoundingBox aggs bucket feat.
Proof.
  intros [[key Hkey] Hreports]. unfold bucketToFeature. rewrite Hkey.
  destruct (Center (geohash_BoundingBox key)) as [lat lng] eqn:Hcentre. simpl.
  destruct (bucketProperties_spec aggs bucket Hreports) as (props & -> & Hset & Honly).
  eexists. split; [done|]. exists key. rewrite Hcentre. simpl.
  split_and!; try done.
  intros name sfx Hname Hsfx.
  destruct (props !! (name +:+ sfx)) as [v|] eqn:Hv; [|done].
  destruct (Honly (name +:+ sfx)) as (name' & sfx' & _ & [stats Hstats] & Hsfx' & Heq);
    [by eexists|].
  destruct (statKey_inj _ _ _ _ Heq Hsfx Hsfx') as [-> _]. congruence.
Qed.

Lemma appendBuckets_spec (aggs : gmap string string) (buckets : list Bucket) :
  Forall (reportsValues aggs) buckets →
  ∀ fc, ∃ feats,
    appendBuckets geohash_BoundingBox aggs buckets fc = Ret (extend fc feats) ∧
    Forall2 (cellFeature geohash_BoundingBox aggs) buckets feats.
Proof.
  induction 1 as [|bucket buckets Hbucket _ IH]; intros fc.
  - exists []. by rewrite extend_nil.
  - simpl. destruct (bucketToFeature_spec aggs bucket Hbucket) as (feat & -> & Hfeat).
    destruct (IH (Append fc (Some feat))) as (feats & -> & Hfeats).
    exists (feat :: feats). split; [|by constructor].
    f_equal. apply (extend_app fc [feat] feats).
Qed.

(** X21: the features of a response whose cells all carry their values.
    When the search succeeds and, in each cell of the "cells"
    aggregation, the key is a string and every configured metric held by
    the cell reports an average and a sum, [doGetAggregates] returns one
    feature per cell, in order: its id is the cell's key, its geometry
    the single point at the centre of the cell's geohash bounding box,
    and its properties are exactly the avg, sum and count of each
    configured metric the cell holds, under the keys "name:avg",
    "name:sum" and "name:count"; a metric absent from the cell
    contributes none of its three keys. *)
Theorem doGetAggregates_cells (e : ElasticsearchSource) (ctx : Context) (tile : Tile)
    (w : World) (results : SearchResult) (buckets : list Bucket) :
  ctx_Value ctx "tile" = Some (CtxTile tile) →
  client_search (ES e) = (Some results, None) →
  Aggregations results !! "cells" = Some buckets →
  Forall (reportsValues (range (Aggs e))) buckets →
  ∃ feats,
    fst (doGetAggregates Tile_Bound geohash_BoundingBox e ctx w) =
      Ret (Some {| fc_Type := "FeatureCollection"; Features := Some <$> feats |}, None) ∧
    Forall2 (cellFeature geohash_BoundingBox (range (Aggs e))) buckets feats.
Proof.
  intros Htile Hsearch Hcells Hreports. unfold doGetAggregates.
  rewrite Htile, Hsearch, Hcells.
  destruct (appendBuckets_spec _ _ Hreports NewFeatureCollection)
    as (feats & -> & Hfeats).
  by exists feats.
Qed.

End Aggregation.

(** The cell reporting "pop" with avg 3.5, sum 35 and count 10 yields
    exactly the properties pop:avg, pop:sum and pop:count; the cell
    lacking "pop" yields none. *)
Lemma doGetAggregates_cells_witness :
  fst (doGetAggregates Samples.unitBound Samples.unitBox Samples.esCells
         Samples.ctxWithTile Samples.world0)
  = Ret (Some {| fc_Type := "FeatureCollection";
                 Features := [Some Samples.featPop; Some Samples.featBare] |}, None)
  ∧ ∃ feats,
      fst (doGetAggregates Samples.unitBound Samples.unitBox Samples.esCells
             Samples.ctxWithTile Samples.world0)
      = Ret (Some {| fc_Type := "FeatureCollection"; Features := Some <$> feats |}, None)
      ∧ Forall2 (cellFeature Samples.unitBox (range (Aggs Samples.esCells)))
                [Samples.cellPop; Samples.cellBare] feats.
Proof.
  split; [vm_compute; reflexivity|].
  apply (doGetAggregates_cells Samples.unitBound Samples.unitBox Samples.esCells
           Samples.ctxWithTile Samples.tile0 Samples.world0
           {| Aggregations := {[ "cells" := [Samples.cellPop; Samples.cellBare] ]} |}
           [Samples.cellPop; Samples.cellBare]).
  - reflexivity.
  - reflexivity.
  - vm_compute. reflexivity.
  - constructor; [|constructor; [|constructor]].
    + split; [by exists "u09"|].
      intros name stats _ Hstats. simpl in Hstats.
      destruct (decide (name = "pop")) as [->|Hne].
      * rewrite lookup_singleton_eq in Hstats. injection Hstats as <-.
        split; by eexists.
      * by rewrite lookup_singleton_ne in Hstats.
    + split; [by exists "u0d"|].
      intros name stats _ Hstats. simpl in Hstats. by rewrite lookup_empty in Hstats.
Defined.

(** C4: the code does not produce a feature per cell for every
    aggregation response. The successful response of [Samples.esNoAvg]
    holds the cell "u09", where the configured metric "pop" reports avg
    3.5, sum 35 and count 10, and the cell "u0f", where "pop" reports
    count 0, sum 0 and no average. The missing average is dereferenced
    unguarded: the retrieval panics, whatever the tile bounds, the
    geohash boxes and the world, and returns no collection, so that
    neither cell yields a feature. *)
Theorem doGetAggregates_missing_average :
  client_search (ES Samples.esNoAvg)
    = (Some {| Aggregations := {[ "cells" := [Samples.cellPop; Samples.cellNoAvg] ]} |},
       None) ∧
  Key Samples.cellNoAvg = VString "u0f" ∧
  range (Aggs Samples.esNoAvg) !! "pop" = Some "population" ∧
  bucket_Aggregations Samples.cellNoAvg !! "pop"
    = Some {| Count := 0; Avg := None; Sum := Some 0%float |} ∧
  (∀ (Tile_Bound : Tile -> Bound) (geohash_BoundingBox : string -> Box) (w : World),
     fst (doGetAggregates Tile_Bound geohash_BoundingBox Samples.esNoAvg
            Samples.ctxWithTile w)
       = Panic NilDereference) ∧
  ¬ ∃ fc, fst (doGetAggregates Samples.unitBound Samples.unitBox Samples.esNoAvg
                 Samples.ctxWithTile Samples.world0)
          = Ret (Some fc, None).
Proof.
  assert (∀ (Tile_Bound : Tile -> Bound) (geohash_BoundingBox : string -> Box) (w : World),
            fst (doGetAggregates Tile_Bound geohash_BoundingBox Samples.esNoAvg
                   Samples.ctxWithTile w)
              = Panic NilDereference) as Hpanic
    by (intros; vm_compute; reflexivity).
  split_and!; [reflexivity|reflexivity|vm_compute; reflexivity|vm_compute; reflexivity|
               exact Hpanic|].
  intros [fc Hrun]. rewrite Hpanic in Hrun. discriminate.
Qed.

(** ** Layer construction *)

Section LayerProperties.

Variable PostGISConfig : Type.
Variable PostGISSource : Type.
Variable NewPostGISSource : PostGISConfig -> GoResult PostGISSource.
Variable elastic_NewClient : ClientOptions -> Client + error.

(** The Elasticsearch constructor fails with the client's error, or
    yields the source holding the client and the configured fields. *)
Lemma NewElasticsearchSource_result (config : ElasticsearchConfig) :
  (∃ err, NewElasticsearchSource (PostGISSource := PostGISSource)
            elastic_NewClient config = (None, Some err)) ∨
  (∃ es, NewElasticsearchSource (PostGISSource := PostGISSource)
           elastic_NewClient config =
         (Some (ElasticsearchBackend
                  {| ES := es; Index := cfg_Index config;
                     GeometryField := cfg_GeometryField config;
                     SourceFields := cfg_SourceFields config;
                     Aggs := cfg_Aggs config |}), None)).
Proof.
  unfold NewElasticsearchSource.
  destruct (elastic_NewClient _) as [es|err]; [right|left]; by eexists.
Qed.

(** C8: [CreateLayer] fails with [NoSourcesErr] when neither backend is
    configured and with [MultipleSourcesErr] when both are; with exactly
    one configured, it returns that backend's constructor error as it
    is, or else a layer with the configured name, description and zooms
    whose source is the constructed backend. *)
Theorem CreateLayer_spec (layerConfig : LayerConfig PostGISConfig) :
  let source := lc_Source layerConfig in
  let created := CreateLayer NewPostGISSource elastic_NewClient layerConfig in
  let layerOf (backend : option (Source PostGISSource)) :=
    {| Name := lc_Name layerConfig; Description := lc_Description layerConfig;
       Minzoom := lc_Minzoom layerConfig; Maxzoom := lc_Maxzoom layerConfig;
       layer_Source := backend |} in
  (Elasticsearch source = None → PostGIS source = None →
   created = (None, Some NoSourcesErr)) ∧
  (is_Some (Elasticsearch source) → is_Some (PostGIS source) →
   created = (None, Some MultipleSourcesErr)) ∧
  (∀ esConfig,
      Elasticsearch source = Some esConfig → PostGIS source = None →
      match NewElasticsearchSource elastic_NewClient esConfig with
      | (_, Some err) => created = (None, Some err)
      | (backend, None) => created = (Some (layerOf backend), None) ∧ is_Some backend
      end) ∧
  (∀ pgConfig,
      Elasticsearch source = None → PostGIS source = Some pgConfig →
      match NewPostGISSource pgConfig with
      | (_, Some err) => created = (None, Some err)
      | (backend, None) => created = (Some (layerOf (PostGISBackend <$> backend)), None)
      end).
Proof.
  cbv zeta. unfold CreateLayer.
  destruct (Elasticsearch (lc_Source layerConfig)) as [esConfig|],
           (PostGIS (lc_Source layerConfig)) as [pgConfig|];
    split_and!; try done; try (by intros [? [=]]); try (by intros ? [? [=]]).
  - intros ? [= <-] _.
    destruct (NewElasticsearchSource_result esConfig) as [[err Hnew]|[es Hnew]];
      rewrite Hnew; by simpl.
  - intros ? _ [= <-]. simpl.
    by destruct (NewPostGISSource pgConfig) as [backend [err|]].
Qed.

End LayerProperties.

(** With only Elasticsearch configured: a layer over the constructed
    source when the backend is up, its error when it is down. *)
Lemma CreateLayer_spec_witness :
  CreateLayer Samples.connectPostGIS Samples.backendUp
    (Samples.layerConfigOf (Some Samples.esConfig0) None)
  = (Some {| Name := "places"; Description := "All the places";
             Minzoom := 0; Maxzoom := 14;
             layer_Source :=
               Some (ElasticsearchBackend
                       {| ES := Samples.client0; Index := "places";
                          GeometryField := "geom"; SourceFields := None;
                          Aggs := None |}) |}, None)
  ∧ CreateLayer Samples.connectPostGIS Samples.backendDown
      (Samples.layerConfigOf (Some Samples.esConfig0) None)
    = (None, Some (ExternalErr "no Elasticsearch node available"))
  ∧ CreateLayer Samples.connectPostGIS Samples.backendUp
      (Samples.layerConfigOf None None)
    = (None, Some NoSourcesErr)
  ∧ CreateLayer Samples.connectPostGIS Samples.backendUp
      (Samples.layerConfigOf (Some Samples.esConfig0) (Some "dbname=gis"))
    = (None, Some MultipleSourcesErr).
Proof.
  split_and!.
  - exact (proj1 (proj1 (proj2 (proj2 (CreateLayer_spec _ _ Samples.connectPostGIS
             Samples.backendUp (Samples.layerConfigOf (Some Samples.esConfig0) None))))
             Samples.esConfig0 eq_refl eq_refl)).
  - exact (proj1 (proj2 (proj2 (CreateLayer_spec _ _ Samples.connectPostGIS
             Samples.backendDown (Samples.layerConfigOf (Some Samples.esConfig0) None))))
             Samples.esConfig0 eq_refl eq_refl).
  - exact (proj1 (CreateLayer_spec _ _ Samples.connectPostGIS Samples.backendUp
             (Samples.layerConfigOf None None)) eq_refl eq_refl).
  - apply (proj1 (proj2 (CreateLayer_spec _ _ Samples.connectPostGIS Samples.backendUp
             (Samples.layerConfigOf (Some Samples.esConfig0) (Some "dbname=gis")))));
      by eexists.
Defined.

(** * Further properties of the code *)

(** ** Inductions and loops over nested values *)


Lemma value_size_lookup (m : gmap string value) (key : string) (child : value) :
  m !! key = Some child → value_size child < value_size (VMap m).
Proof.
  intros Hkey. simpl.
  rewrite (map_fold_delete_L _ _ key child m); [lia| |done].
  intros. lia.
Qed.

Lemma value_size_elem (things : list value) (thing : value) :
  thing ∈ things → value_size thing < value_size (VSlice things).
Proof.
  induction 1 as [thing things|thing other things _ IH]; simpl in *; lia.
Qed.

Lemma value_nested_ind (P : value → Prop) :
  P VNil →
  (∀ v, isScalar v → P v) →
  (∀ things, Forall P things → P (VSlice things)) →
  (∀ m, map_Forall (fun _ => P) m → P (VMap m)) →
  ∀ v, P v.
Proof.
  intros Hnil Hscalar Hslice Hmap v.
  remember (value_size v) as n eqn:Hn.
  revert v Hn. induction n as [n IH] using lt_wf_ind. intros v ->.
  destruct v as [| | | | |things|m]; try (by apply Hscalar); [done| |].
  - apply Hslice. apply Forall_forall. intros thing Hin.
    apply (IH (value_size thing)); [by apply value_size_elem|done].
  - apply Hmap. intros key child Hkey.
    apply (IH (value_size child)); [by apply (value_size_lookup m key)|done].
Qed.

Lemma eachIndexed_app {A : Type} (f : nat → value → A → A)
    (things1 things2 : list value) (i : nat) (a : A) :
  eachIndexed f (things1 ++ things2) i a =
  eachIndexed f things2 (i + length things1) (eachIndexed f things1 i a).
Proof.
  revert i a; induction things1 as [|thing things1 IH]; intros i a; simpl.
  - by rewrite Nat.add_0_r.
  - rewrite IH. f_equal. lia.
Qed.

(** An invariant kept by every step is kept by the loop. *)
Lemma eachIndexed_invariant {A : Type} (I : A → Prop) (f : nat → value → A → A)
    (things : list value) :
  ∀ i a,
    I a →
    (∀ j thing a, things !! j = Some thing → I a → I (f (i + j) thing a)) →
    I (eachIndexed f things i a).
Proof.
  induction things as [|thing things IH]; intros i a Ha Hstep; simpl; [done|].
  apply IH.
  - rewrite <- (Nat.add_0_r i) at 1. by apply Hstep.
  - intros j thing' a' Hj Ha'. replace (S i + j) with (i + S j) by lia. by apply Hstep.
Qed.

Lemma map_fold_invariant {V A : Type} (I : A → Prop) (f : string → V → A → A)
    (m : gmap string V) (a : A) :
  I a →
  (∀ key child a, m !! key = Some child → I a → I (f key child a)) →
  I (map_fold f a m).
Proof.
  intros Ha Hstep.
  assert (∀ m' : gmap string V,
            (∀ key child, m' !! key = Some child → m !! key = Some child) →
            I (map_fold f a m')) as Hall; [|by apply Hall].
  apply (map_fold_weak_ind (fun acc (m' : gmap string V) =>
           (∀ key child, m' !! key = Some child → m !! key = Some child) → I acc)).
  - done.
  - intros key child m' acc Hfresh IH Hsub. apply Hstep.
    + apply Hsub. by rewrite lookup_insert_eq.
    + apply IH. intros key' child' Hkey'. apply Hsub.
      rewrite lookup_insert_ne; [done|]. intros ->. congruence.
Qed.

Lemma eachIndexed_establish {A : Type} (I : A → Prop) (f : nat → value → A → A)
    (things : list value) :
  ∀ i0 i thing a,
    things !! i = Some thing →
    (∀ a, I (f (i0 + i) thing a)) →
    (∀ j thing' a, things !! j = Some thing' → I a → I (f (i0 + j) thing' a)) →
    I (eachIndexed f things i0 a).
Proof.
  induction things as [|first things IH]; intros i0 i thing a Hi Hset Hkeep; [done|].
  simpl. destruct i as [|i].
  - injection Hi as ->. apply eachIndexed_invariant.
    + rewrite <- (Nat.add_0_r i0) at 1. apply Hset.
    + intros j thing' a' Hj Ha'. replace (S i0 + j) with (i0 + S j) by lia.
      by apply Hkeep.
  - apply (IH (S i0) i thing); [done| |].
    + intros a'. replace (S i0 + i) with (i0 + S i) by lia. apply Hset.
    + intros j thing' a' Hj Ha'. replace (S i0 + j) with (i0 + S j) by lia.
      by apply Hkeep.
Qed.

Lemma map_fold_establish {V A : Type} (I : A → Prop) (f : string → V → A → A)
    (m : gmap string V) (a : A) (key : string) (child : V) :
  m !! key = Some child →
  (∀ a, I (f key child a)) →
  (∀ key' child' a, m !! key' = Some child' → I a → I (f key' child' a)) →
  I (map_fold f a m).
Proof.
  intros Hkey Hset Hkeep.
  assert (∀ m' : gmap string V,
            (∀ key' child', m' !! key' = Some child' → m !! key' = Some child') →
            m' !! key = Some child →
            I (map_fold f a m')) as Hall; [|by apply Hall].
  apply (map_fold_weak_ind (fun acc (m' : gmap string V) =>
           (∀ key' child', m' !! key' = Some child' → m !! key' = Some child') →
           m' !! key = Some child → I acc)).
  - intros _ Hempty. by rewrite lookup_empty in Hempty.
  - intros key' child' m' acc Hfresh IH Hsub Hin.
    assert (∀ k c, m' !! k = Some c → m !! k = Some c) as Hsub'.
    { intros k c Hk. apply Hsub. rewrite lookup_insert_ne; [done|].
      intros ->. congruence. }
    destruct (decide (key' = key)) as [->|Hne].
    + rewrite lookup_insert_eq in Hin. injection Hin as ->. apply Hset.
    + rewrite lookup_insert_ne in Hin by done.
      apply Hkeep; [|by apply IH]. apply Hsub. by rewrite lookup_insert_eq.
Qed.

Lemma flatten_scalar (v : value) (accum : gmap string value) (prefixParts : list string) :
  isScalar v → flatten v accum prefixParts = <[Join prefixParts "." := v]> accum.
Proof. by destruct v. Qed.

Lemma flatten_keeps (v : value) :
  ∀ accum prefixParts key,
    is_Some (accum !! key) → is_Some (flatten v accum prefixParts !! key).
Proof.
  induction v as [|v Hv|things IH|m IH] using value_nested_ind;
    intros accum prefixParts key Hkey.
  - done.
  - rewrite flatten_scalar by done. apply lookup_insert_is_Some'. by right.
  - simpl. apply (eachIndexed_invariant (fun a => is_Some (a !! key))); [done|].
    intros j thing a Hj Ha. by apply (Forall_lookup_1 _ _ _ _ IH Hj).
  - simpl. apply (map_fold_invariant (fun a => is_Some (a !! key))); [done|].
    intros k child a Hk Ha. by apply (IH k child Hk).
Qed.

Lemma flatten_reads (v : value) :
  ∀ accum prefixParts key z,
    flatten v accum prefixParts !! key = Some z →
    accum !! key = Some z ∨
    ∃ path, Leaf v path z ∧ key = Join (prefixParts ++ path) ".".
Proof.
  induction v as [|v Hv|things IH|m IH] using value_nested_ind;
    intros accum prefixParts key z.
  - by left.
  - rewrite flatten_scalar by done.
    intros [[<- <-]|[_ Hold]]%lookup_insert_Some; [right|by left].
    exists []. split; [by constructor|]. by rewrite app_nil_r.
  - simpl. revert z.
    apply (eachIndexed_invariant (fun a => ∀ z, a !! key = Some z →
             accum !! key = Some z ∨
             ∃ path, Leaf (VSlice things) path z ∧ key = Join (prefixParts ++ path) "."));
      [by left|].
    intros j thing a Hj Ha z Hz. simpl in Hz.
    apply (Forall_lookup_1 _ _ _ _ IH Hj) in Hz as [Hz|(path & Hleaf & ->)];
      [by apply Ha|right].
    exists (pretty j :: path). split; [by econstructor|]. by rewrite <- app_assoc.
  - simpl. revert z.
    apply (map_fold_invariant (fun a => ∀ z, a !! key = Some z →
             accum !! key = Some z ∨
             ∃ path, Leaf (VMap m) path z ∧ key = Join (prefixParts ++ path) "."));
      [by left|].
    intros k child a Hk Ha z Hz.
    apply (IH k child Hk) in Hz as [Hz|(path & Hleaf & ->)]; [by apply Ha|right].
    exists (k :: path). split; [by econstructor|]. by rewrite <- app_assoc.
Qed.


Lemma holdsLeaf_step (doc child : value) (prefixParts : list string) (seg key : string)
    (accum : gmap string value) :
  (∀ path z, Leaf child path z → Leaf doc (seg :: path) z) →
  holdsLeaf doc prefixParts key accum →
  holdsLeaf doc prefixParts key (flatten child accum (prefixParts ++ [seg])).
Proof.
  intros Hchild (path & z & Hleaf & Hkey & Hz).
  destruct (flatten_keeps child accum (prefixParts ++ [seg]) key) as [z' Hz'];
    [by eexists|].
  destruct (flatten_reads _ _ _ _ _ Hz') as [Hold|(path' & Hleaf' & Hkey')].
  - exists path, z. split_and!; [done..|]. congruence.
  - exists (seg :: path'), z'. split_and!; [by apply Hchild| |done].
    by rewrite Hkey', <- app_assoc.
Qed.

Lemma flatten_records (doc : value) (path : list string) (leaf : value) :
  Leaf doc path leaf →
  ∀ accum prefixParts,
    holdsLeaf doc prefixParts (Join (prefixParts ++ path) ".")
              (flatten doc accum prefixParts).
Proof.
  induction 1 as [v Hv|things i thing path leaf Hi Hleaf IH|m key child path leaf Hkey Hleaf IH];
    intros accum prefixParts.
  - exists [], v. rewrite flatten_scalar by done. split_and!; [by constructor|done|].
    by rewrite app_nil_r, lookup_insert_eq.
  - simpl.
    apply (eachIndexed_establish
             (holdsLeaf (VSlice things) prefixParts
                        (Join (prefixParts ++ pretty i :: path) ".")) _ things 0 i thing);
      [done| |].
    + intros a. destruct (IH a (prefixParts ++ [pretty i])) as (path' & z & ? & Hk & ?).
      rewrite <- !app_assoc in *. simpl in *.
      exists (pretty i :: path'), z. split_and!; [by econstructor|done..].
    + intros j thing' a Hj Ha. apply holdsLeaf_step; [|done].
      intros path' z Hleaf'. by econstructor.
  - simpl.
    apply (map_fold_establish
             (holdsLeaf (VMap m) prefixParts (Join (prefixParts ++ key :: path) "."))
             _ m accum key child); [done| |].
    + intros a. destruct (IH a (prefixParts ++ [key])) as (path' & z & ? & Hk & ?).
      rewrite <- !app_assoc in *. simpl in *.
      exists (key :: path'), z. split_and!; [by econstructor|done..].
    + intros key' child' a Hkey' Ha. apply holdsLeaf_step; [|done].
      intros path' z Hleaf'. by econstructor.
Qed.

Lemma GetNested_Leaf (doc : value) (path : list string) (leaf : value) :
  GetNested doc path = (leaf, true) → isScalar leaf → Leaf doc path leaf.
Proof.
  revert doc; induction path as [|key path IH]; intros doc; simpl.
  - intros [= ->] Hleaf. by constructor.
  - destruct doc as [| | | | | |m]; try done.
    destruct (m !! key) as [child|] eqn:Hkey; [|done].
    intros Hrest Hleaf. econstructor; [done|]. by apply IH.
Qed.

Lemma dotFree_String (c : ascii) (s : string) :
  dotFree (String c s) ↔ c ≠ "."%char ∧ dotFree s.
Proof.
  unfold dotFree. simpl. rewrite not_elem_of_cons. naive_solver.
Qed.

Lemma Join_cons_String (c : ascii) (part : string) (rest : list string) (sep : string) :
  Join (String c part :: rest) sep = String c (Join (part :: rest) sep).
Proof. by destruct rest. Qed.

Lemma Join_Split (s : string) : Join (Split s ".") "." = s.
Proof.
  induction s as [|c s IH]; [done|]. simpl.
  destruct (Ascii.eqb_spec c ".") as [->|Hc].
  - pose proof (Split_nonempty s ".") as Hne.
    destruct (Split s ".") as [|piece pieces]; [done|].
    change (Join ("" :: piece :: pieces) ".") with ("." +:+ Join (piece :: pieces) ".").
    by rewrite IH.
  - pose proof (Split_nonempty s ".") as Hne.
    destruct (Split s ".") as [|piece pieces]; [done|].
    by rewrite Join_cons_String, IH.
Qed.

Lemma Split_dotFree (s : string) : dotFree s → Split s "." = [s].
Proof.
  induction s as [|c s IH]; [done|].
  intros [Hc Hs]%dotFree_String. simpl.
  destruct (Ascii.eqb_spec c ".") as [->|_]; [done|]. by rewrite IH.
Qed.

Lemma Split_append_dot (part rest : string) :
  dotFree part → Split (part +:+ "." +:+ rest) "." = part :: Split rest ".".
Proof.
  induction part as [|c part IH]; [done|].
  intros [Hc Hs]%dotFree_String. simpl.
  destruct (Ascii.eqb_spec c ".") as [->|_]; [done|]. by rewrite IH.
Qed.

Lemma Split_Join (parts : list string) :
  parts ≠ [] → Forall dotFree parts → Split (Join parts ".") "." = parts.
Proof.
  induction parts as [|part parts IH]; [done|]. intros _ Hfree.
  apply Forall_cons in Hfree as [Hpart Hparts].
  destruct parts as [|next parts]; [by apply Split_dotFree|].
  change (Join (part :: next :: parts) ".")
    with (part +:+ "." +:+ Join (next :: parts) ".").
  rewrite Split_append_dot by done. f_equal. by apply IH.
Qed.

Lemma Leaf_functional (doc : value) (path : list string) (leaf1 leaf2 : value) :
  Leaf doc path leaf1 → Leaf doc path leaf2 → leaf1 = leaf2.
Proof.
  induction 1 as [v Hv|things i thing path leaf Hi Hleaf IH|m key child path leaf Hkey Hleaf IH];
    inversion 1; simplify_eq; try done.
  all: by apply IH.
Qed.

(** ** More on mapping one document *)

Lemma geometryValue_parent (e : ElasticsearchSource) (source parentMap : gmap string value)
    (lastPart : string) :
  GetNested (VMap source) (geometryParentPath e) = (VMap parentMap, true) →
  last (geometryPath e) = Some lastPart →
  fst (GetNested (VMap source) (geometryPath e)) = default VNil (parentMap !! lastPart).
Proof.
  intros Hparent Hlast.
  destruct (geometryPath_snoc e) as (lastPart' & _ & Hlast' & Hpath).
  rewrite Hlast in Hlast'. injection Hlast' as <-.
  rewrite Hpath, GetNested_app, Hparent. simpl.
  by destruct (parentMap !! lastPart).
Qed.

Lemma GetNested_deleteAt_other (path : list string) (key : string) :
  ∀ doc other,
    ¬ other `prefix_of` path ++ [key] →
    ¬ (path ++ [key]) `prefix_of` other →
    GetNested (deleteAt path key doc) other = GetNested doc other.
Proof.
  induction path as [|seg path IH]; intros doc other Hnot1 Hnot2.
  - destruct other as [|seg' other]; [destruct Hnot1; apply prefix_nil|].
    destruct doc as [| | | | | |m]; try done. simpl.
    rewrite lookup_delete_ne; [done|].
    intros ->. apply Hnot2. by apply prefix_cons, prefix_nil.
  - destruct other as [|seg' other]; [destruct Hnot1; apply prefix_nil|].
    destruct doc as [| | | | | |m]; try done. simpl.
    destruct (m !! seg) as [child|] eqn:Hseg; [|done]. simpl.
    destruct (decide (seg = seg')) as [<-|Hne].
    + rewrite lookup_insert_eq, Hseg. apply IH.
      * intros Hpre. apply Hnot1. by apply prefix_cons.
      * intros Hpre. apply Hnot2. by apply prefix_cons.
    + by rewrite lookup_insert_ne.
Qed.

Lemma mapSourceFields_dom (source : value) (fields : gmap string string) (prop : string) :
  is_Some (mapSourceFields source fields !! prop) → is_Some (fields !! prop).
Proof.
  rewrite mapSourceFields_lookup. destruct (fields !! prop); [by eexists|].
  by intros [? [=]].
Qed.

(** X2: a mapped feature carries the document's id as its ID and as its
    "id" property, the type "Feature", the geometry decoded from the value
    found at the geometry field of the document (nil when absent), and no
    property besides "id" and the configured ones. *)
Theorem hitToFeature_feature (UnmarshalGeometry : value -> GoResult Geometry)
    (e : ElasticsearchSource) (hit : SearchHit) (feat : Feature) :
  hitToFeature UnmarshalGeometry e hit = Ret (Some feat, None) →
  ID feat = VString (hit_Id hit) ∧
  Type_ feat = "Feature" ∧
  Properties feat !! "id" = Some (VString (hit_Id hit)) ∧
  (∀ prop, is_Some (Properties feat !! prop) →
           prop = "id" ∨ is_Some (range (SourceFields e) !! prop)) ∧
  ∃ raw source,
    hit_Source hit = Some raw ∧ json_Unmarshal raw = (source, None) ∧
    Geometry_ feat =
      fst (UnmarshalGeometry (fst (GetNested (VMap source) (geometryPath e)))) ∧
    is_Some (Geometry_ feat).
Proof.
  intros (raw & source & parentMap & lastPart & geom & err & Hsrc & Hraw & Hparent & Hlast
          & Hgeom & Hfeat)%hitToFeature_success.
  injection Hfeat as ->. simpl. split_and!; [done..| | |].
  - by rewrite lookup_insert_eq.
  - intros prop [Heq|[_ Hprop]]%lookup_insert_is_Some; [by left|right].
    by apply mapSourceFields_dom in Hprop.
  - exists raw, source. split_and!; [done..| |by eexists].
    by rewrite (geometryValue_parent e source parentMap lastPart), Hgeom.
Qed.

(** X3: deleting the geometry does not disturb the other properties: a
    configured property whose path neither leads to the geometry field nor
    passes through it has the value it resolves to in the document as
    received. *)
Theorem hitToFeature_other_properties (UnmarshalGeometry : value -> GoResult Geometry)
    (e : ElasticsearchSource) (hit : SearchHit) (feat : Feature) :
  hitToFeature UnmarshalGeometry e hit = Ret (Some feat, None) →
  ∃ raw source,
    hit_Source hit = Some raw ∧ json_Unmarshal raw = (source, None) ∧
    ∀ prop fieldName,
      range (SourceFields e) !! prop = Some fieldName →
      prop ≠ "id" →
      ¬ Split fieldName "." `prefix_of` geometryPath e →
      ¬ geometryPath e `prefix_of` Split fieldName "." →
      Properties feat !! prop = resolveField (VMap source) fieldName.
Proof.
  intros (raw & source & parentMap & lastPart & geom & err & Hsrc & Hraw & Hparent & Hlast
          & Hgeom & Hfeat)%hitToFeature_success.
  injection Hfeat as ->. exists raw, source. split_and!; [done..|].
  intros prop fieldName Hfield Hid Hnot1 Hnot2. simpl.
  rewrite lookup_insert_ne by done.
  rewrite mapSourceFields_lookup, Hfield. simpl.
  unfold resolveField, strippedSource. rewrite Hlast.
  destruct (geometryPath_snoc e) as (lastPart' & _ & Hlast' & Hpath).
  rewrite Hlast in Hlast'. injection Hlast' as <-.
  rewrite Hpath in Hnot1, Hnot2.
  by rewrite GetNested_deleteAt_other.
Qed.

(** X4: the panics of [hitToFeature]. It never indexes out of range; the
    type assertion fails exactly when the parent of the geometry field
    resolves to something that is not a map; a nil pointer is dereferenced
    exactly when the hit has no source or the decoder yields a nil
    geometry. *)
Theorem hitToFeature_panics (UnmarshalGeometry : value -> GoResult Geometry)
    (e : ElasticsearchSource) (hit : SearchHit) :
  hitToFeature UnmarshalGeometry e hit ≠ Panic IndexOutOfRange ∧
  (hitToFeature UnmarshalGeometry e hit = Panic TypeAssertionFailed ↔
   ∃ raw source parent,
     hit_Source hit = Some raw ∧ json_Unmarshal raw = (source, None) ∧
     GetNested (VMap source) (geometryParentPath e) = (parent, true) ∧
     ∀ m, parent ≠ VMap m) ∧
  (hitToFeature UnmarshalGeometry e hit = Panic NilDereference ↔
   hit_Source hit = None ∨
   ∃ raw source parentMap,
     hit_Source hit = Some raw ∧ json_Unmarshal raw = (source, None) ∧
     GetNested (VMap source) (geometryParentPath e) = (VMap parentMap, true) ∧
     fst (UnmarshalGeometry (fst (GetNested (VMap source) (geometryPath e)))) = None).
Proof.
  unfold hitToFeature. fold (geometryPath e). fold (geometryParentPath e).
  destruct (geometryPath_snoc e) as (lastPart & Hlookup & Hlast & _).
  rewrite Hlookup.
  destruct (hit_Source hit) as [raw|].
  2: { split_and!; [done| |by split; auto]. split; [done|]. by intros (? & ? & ? & [=] & _). }
  destruct (json_Unmarshal raw) as [source [err|]] eqn:Hraw.
  { split_and!; [done|split; [done|]|split; [done|]].
    - intros (? & ? & ? & [= <-] & Hraw' & _). by rewrite Hraw in Hraw'.
    - intros [[=]|(? & ? & ? & [= <-] & Hraw' & _)]. by rewrite Hraw in Hraw'. }
  destruct (GetNested (VMap source) (geometryParentPath e)) as [parent [|]] eqn:Hparent;
    simpl.
  2: { split_and!; [done|split; [done|]|split; [done|]].
       - intros (? & ? & ? & [= <-] & Hraw' & Hparent' & _).
         rewrite Hraw in Hraw'. injection Hraw' as <-. by rewrite Hparent in Hparent'.
       - intros [[=]|(? & ? & ? & [= <-] & Hraw' & Hparent' & _)].
         rewrite Hraw in Hraw'. injection Hraw' as <-. by rewrite Hparent in Hparent'. }
  assert (∀ parentMap, parent = VMap parentMap →
            fst (GetNested (VMap source) (geometryPath e))
            = default VNil (parentMap !! lastPart)) as Hvalue.
  { intros parentMap ->. by apply geometryValue_parent. }
  destruct parent as [| | | | | |parentMap].
  1-6: split_and!; [done| |split; [done|]];
       [split; [intros _; eexists raw, source, _; by split_and!|done]|
        intros [[=]|(? & ? & ? & [= <-] & Hraw' & Hparent' & _)];
        rewrite Hraw in Hraw'; injection Hraw' as <-; by rewrite Hparent in Hparent'].
  rewrite <- (Hvalue parentMap eq_refl).
  destruct (UnmarshalGeometry _) as [[geom|] err] eqn:Hgeom.
  - split_and!; [done|split; [done|]|split; [done|]].
    + intros (? & ? & ? & [= <-] & Hraw' & Hparent' & Hnot).
      rewrite Hraw in Hraw'. injection Hraw' as <-. rewrite Hparent in Hparent'.
      injection Hparent' as <-. by destruct (Hnot parentMap).
    + intros [[=]|(? & ? & ? & [= <-] & Hraw' & _ & Hnil)].
      rewrite Hraw in Hraw'. injection Hraw' as <-. by rewrite Hgeom in Hnil.
  - split_and!; [done|split; [done|]|split; [intros _|done]].
    + intros (? & ? & ? & [= <-] & Hraw' & Hparent' & Hnot).
      rewrite Hraw in Hraw'. injection Hraw' as <-. rewrite Hparent in Hparent'.
      injection Hparent' as <-. by destruct (Hnot parentMap).
    + right. exists raw, source, parentMap. by rewrite Hgeom.
Qed.

(** X5: with a geometry field that has no ".", the parent container is
    the document itself, so the only error [hitToFeature] can return is
    that of unmarshalling the source; field-not-found cannot occur. *)
Theorem hitToFeature_undotted (UnmarshalGeometry : value -> GoResult Geometry)
    (e : ElasticsearchSource) (hit : SearchHit) (feat : option Feature) (err : error) :
  dotFree (GeometryField e) →
  hitToFeature UnmarshalGeometry e hit = Ret (feat, Some err) →
  ∃ raw, hit_Source hit = Some raw ∧ snd (json_Unmarshal raw) = Some err.
Proof.
  intros Hfree (_ & raw & Hsrc & [Herr|(_ & Hnot & _)])%hitToFeature_error_iff;
    [by exists raw|].
  unfold geometryParentPath, geometryPath in Hnot.
  by rewrite (Split_dotFree _ Hfree) in Hnot.
Qed.

(** ** More on nested paths and the source fields *)

(** X1: resolving a concatenated path resolves its first part and then
    the rest from the value found; a path is found only if each of its
    prefixes is; and not-found always comes with the nil value. *)
Theorem GetNested_paths (v : value) (p q : list string) :
  GetNested v (p ++ q) =
    (if snd (GetNested v p) then GetNested (fst (GetNested v p)) q else (VNil, false)) ∧
  (snd (GetNested v (p ++ q)) = true → snd (GetNested v p) = true) ∧
  (snd (GetNested v p) = false → GetNested v p = (VNil, false)).
Proof.
  split_and!.
  - apply GetNested_app.
  - rewrite GetNested_app. by destruct (snd (GetNested v p)).
  - destruct (GetNested v p) as [r found] eqn:Hp. simpl. intros ->.
    by rewrite (GetNested_not_found_nil _ _ _ Hp).
Qed.

(** X12: [getSourceFields] lists the geometry field first, followed by
    the configured paths, each once per property that names it, in some
    order. *)
Theorem getSourceFields_fields (e : ElasticsearchSource) :
  ∃ rest,
    getSourceFields e = GeometryField e :: rest ∧
    rest ≡ₚ (map_to_list (range (SourceFields e))).*2.
Proof.
  unfold getSourceFields.
  apply (map_fold_weak_ind (fun acc (m : gmap string string) =>
           ∃ rest, acc = GeometryField e :: rest ∧ rest ≡ₚ (map_to_list m).*2)).
  - exists []. by rewrite map_to_list_empty.
  - intros prop fieldName m acc Hfresh (rest & -> & Hrest).
    exists (rest ++ [fieldName]). split; [done|].
    rewrite map_to_list_insert by done. simpl.
    by rewrite <- Hrest, Permutation_app_comm.
Qed.

(** ** More on the aggregation path *)

Lemma subAggregations_fold (field : string) (aggs : gmap string string) :
  map_fold (fun aggName aggField q => SubAggregation q aggName aggField)
           {| agg_field := field; agg_subAggregations := ∅ |} aggs
  = {| agg_field := field; agg_subAggregations := aggs |}.
Proof.
  apply (map_fold_weak_ind (fun q (m : gmap string string) =>
           q = {| agg_field := field; agg_subAggregations := m |})); [done|].
  by intros name f m q _ ->.
Qed.

(** X9: [doGetAggregates] issues exactly one backend call, whatever the
    answer: a search of the index, filtered by the bounds filter of the
    tile, with the geohash-grid aggregation "cells" on the geometry field
    holding one statistics sub-aggregation per configured metric, named by
    its key; it writes no log line and acquires no timer. *)
Theorem doGetAggregates_request (Tile_Bound : Tile -> Bound)
    (geohash_BoundingBox : string -> Box) (e : ElasticsearchSource) (ctx : Context)
    (tile : Tile) (w : World) :
  ctx_Value ctx "tile" = Some (CtxTile tile) →
  snd (doGetAggregates Tile_Bound geohash_BoundingBox e ctx w) =
  issue (SearchDo (Index e)
                  {| filterClauses := [boundsFilter e (Tile_Bound tile)] |}
                  "cells"
                  {| agg_field := GeometryField e;
                     agg_subAggregations := range (Aggs e) |}
                  ctx) w.
Proof.
  intros Htile. unfold doGetAggregates. rewrite Htile, subAggregations_fold.
  destruct (client_search (ES e)) as [[results|] [err|]]; [done| |done..].
  destruct (Aggregations results !! "cells") as [buckets|]; [|done].
  by destruct (appendBuckets _ _ _ _).
Qed.

Lemma appendBuckets_inv (geohash_BoundingBox : string -> Box)
    (aggs : gmap string string) (buckets : list Bucket) :
  ∀ fc fc',
    appendBuckets geohash_BoundingBox aggs buckets fc = Ret fc' →
    ∃ feats, fc' = extend fc feats ∧ length feats = length buckets.
Proof.
  induction buckets as [|bucket buckets IH]; intros fc fc'; simpl.
  - intros [= <-]. exists []. by rewrite extend_nil.
  - destruct (bucketToFeature _ _ _) as [feat|p]; [|done].
    intros (feats & -> & Hlen)%IH. exists (feat :: feats). split; [|by simpl; rewrite Hlen].
    apply (extend_app fc [feat] feats).
Qed.

(** X10: [doGetAggregates] returns an error exactly when the search
    does, that error and a nil collection; when it returns without error
    the collection holds as many features as the response has cells (none
    when the response has no "cells" aggregation). *)
Theorem doGetAggregates_result (Tile_Bound : Tile -> Bound)
    (geohash_BoundingBox : string -> Box) (e : ElasticsearchSource) (ctx : Context)
    (tile : Tile) (w : World) :
  ctx_Value ctx "tile" = Some (CtxTile tile) →
  (∀ x err,
      fst (doGetAggregates Tile_Bound geohash_BoundingBox e ctx w) = Ret (x, Some err) ↔
      x = None ∧ ∃ results, client_search (ES e) = (results, Some err)) ∧
  (∀ x,
      fst (doGetAggregates Tile_Bound geohash_BoundingBox e ctx w) = Ret (x, None) →
      ∃ results feats,
        client_search (ES e) = (Some results, None) ∧
        x = Some {| fc_Type := "FeatureCollection"; Features := Some <$> feats |} ∧
        length feats = length (default [] (Aggregations results !! "cells"))).
Proof.
  intros Htile. unfold doGetAggregates. rewrite Htile.
  destruct (client_search (ES e)) as [[results|] [err|]]; simpl.
  - split; [|done]. intros x err'. split; [intros [= <- <-]|intros (-> & ? & [= _ <-])];
      [by eauto|done].
  - split.
    + intros x err'.
      destruct (Aggregations results !! "cells") as [buckets|];
        [destruct (appendBuckets _ _ _ _)|]; (split; [done|by intros (_ & ? & [=])]).
    + intros x. destruct (Aggregations results !! "cells") as [buckets|] eqn:Hcells; simpl.
      * destruct (appendBuckets _ _ _ _) as [fc|p] eqn:Hfc; [|done].
        apply appendBuckets_inv in Hfc as (feats & -> & Hlen).
        intros [= <-]. exists results, feats. rewrite Hcells. by split_and!.
      * intros [= <-]. exists results, []. rewrite Hcells. by split_and!.
  - split; [|done]. intros x err'. split; [intros [= <- <-]|intros (-> & ? & [= _ <-])];
      [by eauto|done].
  - split; [|done]. intros x err'. split; [done|by intros (_ & ? & [=])].
Qed.


Lemma bucketProperties_panics (aggs : gmap string string) (bucket : Bucket)
    (props : gmap string value) (name : string) (stats : ExtendedStats) :
  is_Some (aggs !! name) →
  bucket_Aggregations bucket !! name = Some stats →
  Avg stats = None ∨ Sum stats = None →
  ∃ p, bucketProperties aggs bucket props = Panic p.
Proof.
  intros [field Hname] Hstats Hnone. unfold bucketProperties.
  apply (map_fold_establish (fun acc => ∃ p, acc = Panic p) _ aggs _ name field);
    [done| |].
  - intros [props'|p]; [|by eexists]. rewrite Hstats.
    destruct Hnone as [->| ->]; [by eexists|]. destruct (Avg stats); by eexists.
  - intros name' field' acc _ [p ->]. by eexists.
Qed.

Lemma bucketToFeature_panics (geohash_BoundingBox : string -> Box)
    (aggs : gmap string string) (bucket : Bucket) :
  lacksValues aggs bucket →
  ∃ p, bucketToFeature geohash_BoundingBox aggs bucket = Panic p.
Proof.
  unfold bucketToFeature. intros [Hkey|(name & stats & Hname & Hstats & Hnone)].
  - destruct (Key bucket) as [| | | |key| |]; try (by eexists). by destruct (Hkey key).
  - destruct (Key bucket) as [| | | |key| |]; try (by eexists).
    destruct (Center _) as [lat lng].
    destruct (bucketProperties_panics aggs bucket
                (Properties (setID (NewFeature (Some (GPoint (lng, lat)))) (VString key)))
                name stats Hname Hstats Hnone) as [p ->].
    by eexists.
Qed.

Lemma appendBuckets_panics (geohash_BoundingBox : string -> Box)
    (aggs : gmap string string) (buckets : list Bucket) (bucket : Bucket) :
  bucket ∈ buckets → lacksValues aggs bucket →
  ∀ fc, ∃ p, appendBuckets geohash_BoundingBox aggs buckets fc = Panic p.
Proof.
  intros Hin Hlacks. induction Hin as [bucket buckets|bucket other buckets _ IH];
    intros fc; simpl.
  - destruct (bucketToFeature_panics geohash_BoundingBox aggs bucket Hlacks) as [p ->].
    by eexists.
  - destruct (bucketToFeature _ _ other) as [feat|p]; [apply IH; done|by eexists].
Qed.

(** X11: one cell whose key is not a string, or that holds a configured
    metric without an average or without a sum, makes the whole
    aggregation retrieval panic, whatever the other cells are. *)
Theorem doGetAggregates_panics (Tile_Bound : Tile -> Bound)
    (geohash_BoundingBox : string -> Box) (e : ElasticsearchSource) (ctx : Context)
    (tile : Tile) (w : World) (results : SearchResult) (buckets : list Bucket)
    (bucket : Bucket) :
  ctx_Value ctx "tile" = Some (CtxTile tile) →
  client_search (ES e) = (Some results, None) →
  Aggregations results !! "cells" = Some buckets →
  bucket ∈ buckets →
  lacksValues (range (Aggs e)) bucket →
  ∃ p, fst (doGetAggregates Tile_Bound geohash_BoundingBox e ctx w) = Panic p.
Proof.
  intros Htile Hsearch Hcells Hin Hlacks. unfold doGetAggregates.
  rewrite Htile, Hsearch, Hcells.
  destruct (appendBuckets_panics geohash_BoundingBox _ _ _ Hin Hlacks NewFeatureCollection)
    as [p ->].
  by eexists.
Qed.

(** ** More on the raw-feature path *)

Lemma appendHits_panic (UnmarshalGeometry : value -> GoResult Geometry)
    (e : ElasticsearchSource) (hits hits' : list SearchHit) (feats : list Feature)
    (hit : SearchHit) (p : PanicKind) (fc : FeatureCollection) :
  Forall2 (mapsTo UnmarshalGeometry e) hits feats →
  hitToFeature UnmarshalGeometry e hit = Panic p →
  appendHits UnmarshalGeometry e (hits ++ hit :: hits') fc = Panic p.
Proof.
  intros Hall Hpanic. revert fc. induction Hall as [|h f hs fs Hh _ IH]; intros fc; simpl.
  - by rewrite Hpanic.
  - by rewrite Hh, IH.
Qed.

(** X7: a panic while mapping a document is not turned into an error:
    after pages that map, a page holding a document on which
    [hitToFeature] panics makes [doGetFeatures] panic the same way. *)
Theorem doGetFeatures_panics (UnmarshalGeometry : value -> GoResult Geometry)
    (Tile_Bound : Tile -> Bound) (e : ElasticsearchSource) (ctx : Context) (tile : Tile)
    (w : World) (pages : list (list SearchHit)) (featss : list (list Feature))
    (hits hits' : list SearchHit) (feats : list Feature) (hit : SearchHit)
    (p : PanicKind) (rest : list ScrollResponse) :
  ctx_Value ctx "tile" = Some (CtxTile tile) →
  Forall2 (Forall2 (mapsTo UnmarshalGeometry e)) pages featss →
  Forall2 (mapsTo UnmarshalGeometry e) hits feats →
  hitToFeature UnmarshalGeometry e hit = Panic p →
  client_scroll (ES e) = (ScrollPage <$> pages) ++ ScrollPage (hits ++ hit :: hits') :: rest →
  fst <$> doGetFeatures UnmarshalGeometry Tile_Bound e ctx w = Some (Panic p).
Proof.
  intros Htile Hpages Hhits Hpanic Hscript. unfold doGetFeatures. rewrite Htile, Hscript.
  edestruct (scrollLoop_pages UnmarshalGeometry e ctx) as (defers' & w' & ->);
    [exact Hpages|].
  simpl. by rewrite (appendHits_panic _ _ _ _ _ _ _ _ Hhits Hpanic).
Qed.

Lemma scrollLoop_result (UnmarshalGeometry : value -> GoResult Geometry)
    (e : ElasticsearchSource) (ctx : Context) (scroll : ScrollService)
    (answers : list ScrollResponse) :
  ∀ fc defers w x err defers' w',
    scrollLoop UnmarshalGeometry e ctx scroll answers fc defers w
      = Some (Ret (x, err), defers', w') →
    match err with
    | Some _ => x = None
    | None =>
        ∃ pages featss rest,
          answers = (ScrollPage <$> pages) ++ ScrollError io_EOF :: rest ∧
          Forall2 (Forall2 (mapsTo UnmarshalGeometry e)) pages featss ∧
          x = Some (extend fc (concat featss))
    end.
Proof.
  induction answers as [|answer answers IH]; intros fc defers w x err defers' w'; [done|].
  simpl. destruct answer as [hits|err0].
  - destruct (appendHits UnmarshalGeometry e hits fc) as [[fc1|err1]|p] eqn:Hpage.
    + apply appendHits_inv in Hpage as (feats & Hfeats & ->).
      intros Hrest%IH. destruct err as [err|]; [done|].
      destruct Hrest as (pages & featss & rest & -> & Hpages & ->).
      exists (hits :: pages), (feats :: featss), rest.
      split_and!; [done|by constructor|]. simpl. by rewrite extend_app.
    + by intros [= <- <- _ _].
    + done.
  - destruct (decide (err0 = io_EOF)) as [->|Hne].
    + intros [= <- <- _ _]. exists [], [], answers. split_and!; [done|constructor|].
      by rewrite extend_nil.
    + by intros [= <- <- _ _].
Qed.

(** X6: what [doGetFeatures] can return. With an error the collection
    is nil; without one, the backend answered with pages whose documents
    all mapped, then with the end-of-results signal, and the collection
    holds exactly their features in order. It never returns a collection
    cut short. *)
Theorem doGetFeatures_result (UnmarshalGeometry : value -> GoResult Geometry)
    (Tile_Bound : Tile -> Bound) (e : ElasticsearchSource) (ctx : Context)
    (w w' : World) (x : option FeatureCollection) (err : option error) :
  doGetFeatures UnmarshalGeometry Tile_Bound e ctx w = Some (Ret (x, err), w') →
  match err with
  | Some _ => x = None
  | None =>
      ∃ pages featss rest,
        client_scroll (ES e) = (ScrollPage <$> pages) ++ ScrollError io_EOF :: rest ∧
        Forall2 (Forall2 (mapsTo UnmarshalGeometry e)) pages featss ∧
        x = Some {| fc_Type := "FeatureCollection"; Features := Some <$> concat featss |}
  end.
Proof.
  unfold doGetFeatures.
  destruct (ctx_Value ctx "tile") as [[tile|v]|]; [|done..].
  destruct (scrollLoop _ _ _ _ _ _ _ _) as [[[out1 defers] w1]|] eqn:Hloop; [|done].
  intros [= -> _]. by apply scrollLoop_result in Hloop.
Qed.




(** ** More on layer construction *)

(** X13: [CreateLayer] never returns neither a layer nor an error, and
    when it returns a layer there is no error, exactly one backend was
    configured, the layer carries the configured name, description and
    zoom range, and an Elasticsearch layer has its source set. *)
Theorem CreateLayer_result {PostGISConfig PostGISSource : Type}
    (NewPostGISSource : PostGISConfig -> GoResult PostGISSource)
    (elastic_NewClient : ClientOptions -> Client + error)
    (layerConfig : LayerConfig PostGISConfig) :
  let created := CreateLayer NewPostGISSource elastic_NewClient layerConfig in
  created ≠ (None, None) ∧
  ∀ layer err,
    created = (Some layer, err) →
    err = None ∧
    (is_Some (Elasticsearch (lc_Source layerConfig))
     ↔ PostGIS (lc_Source layerConfig) = None) ∧
    Name layer = lc_Name layerConfig ∧
    Description layer = lc_Description layerConfig ∧
    Minzoom layer = lc_Minzoom layerConfig ∧
    Maxzoom layer = lc_Maxzoom layerConfig ∧
    (is_Some (Elasticsearch (lc_Source layerConfig)) →
     ∃ es, layer_Source layer = Some (ElasticsearchBackend es)).
Proof.
  cbv zeta. unfold CreateLayer.
  destruct (Elasticsearch (lc_Source layerConfig)) as [esConfig|],
           (PostGIS (lc_Source layerConfig)) as [pgConfig|]; simpl; try done.
  - unfold NewElasticsearchSource.
    destruct (elastic_NewClient _) as [es|err]; [|done].
    split; [done|]. intros layer err [= <- <-]. simpl. split_and!; try done.
    by eexists.
  - destruct (NewPostGISSource pgConfig) as [backend [err|]]; [done|].
    split; [done|]. intros layer err' [= <- <-]. simpl.
    split_and!; try done; by intros [? [=]].
Qed.

(** ** The properties of [flatten] *)

(** X14: [flatten] only adds to the accumulator: an entry present
    before is present after, and an entry whose key is not the key of a
    leaf of the flattened value is left as it was. *)
Theorem flatten_frame (v : value) (accum : gmap string value) (prefixParts : list string)
    (key : string) :
  (is_Some (accum !! key) → is_Some (flatten v accum prefixParts !! key)) ∧
  ((∀ path z, Leaf v path z → key ≠ Join (prefixParts ++ path) ".") →
   flatten v accum prefixParts !! key = accum !! key).
Proof.
  split; [apply flatten_keeps|]. intros Hother.
  destruct (flatten v accum prefixParts !! key) as [z|] eqn:Hz.
  - apply flatten_reads in Hz as [Hz|(path & Hleaf & ->)]; [done|].
    by destruct (Hother path z Hleaf).
  - destruct (accum !! key) as [z|] eqn:Hold; [|done].
    destruct (flatten_keeps v accum prefixParts key) as [z' Hz']; [by eexists|].
    congruence.
Qed.

(** X15: every entry of the flattened map either was in the accumulator
    or is a scalar leaf of the value, stored under the prefix and the
    leaf's path joined by "."; nil values and empty containers leave no
    entry. *)
Theorem flatten_entry_is_leaf (v : value) (accum : gmap string value)
    (prefixParts : list string) (key : string) (z : value) :
  flatten v accum prefixParts !! key = Some z →
  accum !! key = Some z ∨
  ∃ path, Leaf v path z ∧ isScalar z ∧ key = Join (prefixParts ++ path) ".".
Proof.
  intros [Hold|(path & Hleaf & ->)]%flatten_reads; [by left|right].
  exists path. split_and!; [done| |done].
  clear -Hleaf. by induction Hleaf.
Qed.

(** X16: the key of every leaf is present after [flatten] and holds a
    leaf of that key; it holds the leaf itself when no other leaf has the
    same key. *)
Theorem flatten_leaf_recorded (doc : value) (path : list string) (leaf : value)
    (accum : gmap string value) (prefixParts : list string) :
  Leaf doc path leaf →
  let key := Join (prefixParts ++ path) "." in
  (∃ path' z,
      Leaf doc path' z ∧ Join (prefixParts ++ path') "." = key ∧
      flatten doc accum prefixParts !! key = Some z) ∧
  ((∀ path' z, Leaf doc path' z → Join (prefixParts ++ path') "." = key → z = leaf) →
   flatten doc accum prefixParts !! key = Some leaf).
Proof.
  intros Hleaf key.
  destruct (flatten_records doc path leaf Hleaf accum prefixParts)
    as (path' & z & Hleaf' & Hkey & Hz).
  split; [by exists path', z|]. intros Hunique.
  by rewrite <- (Hunique path' z Hleaf' Hkey).
Qed.

(** X17: [flatten] agrees with [GetNested]: a scalar that [GetNested]
    finds at a path is stored by [flatten] under the path joined by ".",
    provided no other leaf of the document has that key. *)
Theorem flatten_GetNested (doc : value) (path : list string) (leaf : value)
    (accum : gmap string value) :
  GetNested doc path = (leaf, true) →
  isScalar leaf →
  (∀ path' z, Leaf doc path' z → Join path' "." = Join path "." → z = leaf) →
  flatten doc accum [] !! Join path "." = Some leaf.
Proof.
  intros Hfound Hscalar Hunique.
  destruct (flatten_records doc path leaf (GetNested_Leaf _ _ _ Hfound Hscalar) accum [])
    as (path' & z & Hleaf' & Hkey & Hz).
  simpl in *. by rewrite <- (Hunique path' z Hleaf' Hkey).
Qed.

(** X18: for a document whose keys hold no ".", the flattened map is
    read back by splitting: a key holds a value exactly when that value is
    the leaf at the key's segments. *)
Theorem flatten_lookup_Split (m : gmap string value) :
  (∀ path z, Leaf (VMap m) path z → Forall dotFree path) →
  ∀ key z,
    flatten (VMap m) ∅ [] !! key = Some z ↔ Leaf (VMap m) (Split key ".") z.
Proof.
  intros Hfree key z.
  assert (∀ path z, Leaf (VMap m) path z → path ≠ []) as Hnonempty.
  { intros path z' Hleaf ->. by inversion Hleaf. }
  split.
  - intros [Hempty|(path & Hleaf & ->)]%flatten_reads;
      [by rewrite lookup_empty in Hempty|].
    simpl. rewrite Split_Join; [done|by eapply Hnonempty|by eapply Hfree].
  - intros Hleaf.
    destruct (flatten_records _ _ _ Hleaf ∅ []) as (path' & z' & Hleaf' & Hkey & Hz).
    simpl in *. rewrite Join_Split in *.
    assert (path' = Split key ".") as ->.
    { rewrite <- Hkey. symmetry.
      apply Split_Join; [by eapply Hnonempty|by eapply Hfree]. }
    by rewrite (Leaf_functional _ _ _ _ Hleaf Hleaf').
Qed.

(** ** Sample documents *)

Lemma Leaf_docABC (path : list string) (z : value) :
  Leaf Samples.docABC path z ↔ path = ["a"; "b"; "c"] ∧ z = VFloat64 5.
Proof.
  split.
  - unfold Samples.docABC. intros Hleaf.
    inversion Hleaf as [? Hs| |m k child p l Hk Hc]; [done|]. subst.
    apply lookup_singleton_Some in Hk as [<- <-].
    inversion Hc as [? Hs| |m k child p' l Hk Hc']; [done|]. subst.
    apply lookup_singleton_Some in Hk as [<- <-].
    inversion Hc' as [? Hs| |m k child p'' l Hk Hc'']; [done|]. subst.
    apply lookup_singleton_Some in Hk as [<- <-].
    by inversion Hc''.
  - intros [-> ->]. unfold Samples.docABC.
    repeat (econstructor; [apply lookup_singleton_eq|]). by constructor.
Qed.

Lemma dotFree_decide (s : string) :
  bool_decide ("."%char ∉ String.list_ascii_of_string s) = true → dotFree s.
Proof. apply bool_decide_eq_true_1. Qed.

(** ** The properties above, on the sample data *)

Lemma hitGood_maps :
  hitToFeature Samples.decodePoint Samples.esGeom Samples.hitGood
  = Ret (Some Samples.featGood, None).
Proof. vm_compute. reflexivity. Qed.

Lemma docABC_unambiguous (path : list string) (z : value) :
  Leaf Samples.docABC path z → Forall dotFree path ∧ z = VFloat64 5.
Proof.
  intros [-> ->]%Leaf_docABC. split; [|done].
  repeat constructor; apply dotFree_decide; vm_compute; reflexivity.
Qed.

Lemma hitToFeature_feature_witness :
  ID Samples.featGood = VString (hit_Id Samples.hitGood) ∧
  Type_ Samples.featGood = "Feature" ∧
  Properties Samples.featGood !! "id" = Some (VString (hit_Id Samples.hitGood)) ∧
  (∀ prop, is_Some (Properties Samples.featGood !! prop) →
           prop = "id" ∨ is_Some (range (SourceFields Samples.esGeom) !! prop)) ∧
  ∃ raw source,
    hit_Source Samples.hitGood = Some raw ∧ json_Unmarshal raw = (source, None) ∧
    Geometry_ Samples.featGood =
      fst (Samples.decodePoint
             (fst (GetNested (VMap source) (geometryPath Samples.esGeom)))) ∧
    is_Some (Geometry_ Samples.featGood).
Proof. exact (hitToFeature_feature _ _ _ _ hitGood_maps). Defined.

Lemma hitToFeature_other_properties_witness :
  Properties Samples.featGood !! "name" = Some (VString "oak").
Proof.
  destruct (hitToFeature_other_properties _ _ _ _ hitGood_maps)
    as (raw & source & Hsrc & Hraw & Hprops).
  injection Hsrc as <-. injection Hraw as <-.
  rewrite (Hprops "name" "props.name").
  - vm_compute. reflexivity.
  - vm_compute. reflexivity.
  - discriminate.
  - intros [k Hk]. vm_compute in Hk. discriminate.
  - intros [k Hk]. vm_compute in Hk. discriminate.
Defined.

Lemma hitToFeature_undotted_witness :
  ∃ raw, hit_Source Samples.hitBad = Some raw ∧
         snd (json_Unmarshal raw) = Some (ExternalErr "unexpected end of JSON input").
Proof.
  apply (hitToFeature_undotted Samples.decodePoint Samples.esGeom Samples.hitBad None).
  - apply dotFree_decide. vm_compute. reflexivity.
  - vm_compute. reflexivity.
Defined.

Lemma doGetFeatures_result_witness :
  ∃ pages featss rest,
    client_scroll (ES Samples.esOnePage)
      = (ScrollPage <$> pages) ++ ScrollError io_EOF :: rest ∧
    Forall2 (Forall2 (mapsTo Samples.decodePoint Samples.esOnePage)) pages featss ∧
    Some {| fc_Type := "FeatureCollection"; Features := [Some Samples.featGood] |}
      = Some {| fc_Type := "FeatureCollection"; Features := Some <$> concat featss |}.
Proof.
  assert (doGetFeatures Samples.decodePoint Samples.unitBound Samples.esOnePage
            Samples.ctxWithTile Samples.world0
          = Some (Ret (Some {| fc_Type := "FeatureCollection";
                               Features := [Some Samples.featGood] |}, None),
                  worldAfter (doGetFeatures Samples.decodePoint Samples.unitBound
                                Samples.esOnePage Samples.ctxWithTile Samples.world0)
                             Samples.world0)) as Hrun
    by (vm_compute; reflexivity).
  exact (doGetFeatures_result _ _ _ _ _ _ _ _ Hrun).
Defined.

Lemma doGetFeatures_panics_witness :
  fst <$> doGetFeatures Samples.decodePoint Samples.unitBound Samples.esPanicPage
            Samples.ctxWithTile Samples.world0
  = Some (Panic NilDereference).
Proof.
  apply (doGetFeatures_panics Samples.decodePoint Samples.unitBound Samples.esPanicPage
           Samples.ctxWithTile Samples.tile0 Samples.world0 [] []
           [Samples.hitGood] [] [Samples.featGood] Samples.hitNoSource NilDereference []).
  - reflexivity.
  - constructor.
  - constructor; [exact hitGood_maps|constructor].
  - reflexivity.
  - reflexivity.
Defined.


Lemma doGetAggregates_request_witness :
  snd (doGetAggregates Samples.unitBound Samples.unitBox Samples.esCells
         Samples.ctxWithTile Samples.world0)
  = issue (SearchDo (Index Samples.esCells)
                    {| filterClauses :=
                         [boundsFilter Samples.esCells (Samples.unitBound Samples.tile0)] |}
                    "cells"
                    {| agg_field := GeometryField Samples.esCells;
                       agg_subAggregations := range (Aggs Samples.esCells) |}
                    Samples.ctxWithTile) Samples.world0.
Proof.
  exact (doGetAggregates_request Samples.unitBound Samples.unitBox Samples.esCells
           Samples.ctxWithTile Samples.tile0 Samples.world0 eq_refl).
Defined.

Lemma doGetAggregates_result_witness :
  ∃ results feats,
    client_search (ES Samples.esCells) = (Some results, None) ∧
    Some {| fc_Type := "FeatureCollection";
            Features := [Some Samples.featPop; Some Samples.featBare] |}
      = Some {| fc_Type := "FeatureCollection"; Features := Some <$> feats |} ∧
    length feats = length (default [] (Aggregations results !! "cells")).
Proof.
  apply (proj2 (doGetAggregates_result Samples.unitBound Samples.unitBox Samples.esCells
                  Samples.ctxWithTile Samples.tile0 Samples.world0 eq_refl)).
  vm_compute. reflexivity.
Defined.

Lemma doGetAggregates_panics_witness :
  ∃ p, fst (doGetAggregates Samples.unitBound Samples.unitBox Samples.esNoAvg
              Samples.ctxWithTile Samples.world0) = Panic p.
Proof.
  apply (doGetAggregates_panics Samples.unitBound Samples.unitBox Samples.esNoAvg
           Samples.ctxWithTile Samples.tile0 Samples.world0
           {| Aggregations := {[ "cells" := [Samples.cellPop; Samples.cellNoAvg] ]} |}
           [Samples.cellPop; Samples.cellNoAvg] Samples.cellNoAvg).
  - reflexivity.
  - reflexivity.
  - vm_compute. reflexivity.
  - apply list_elem_of_further, list_elem_of_here.
  - right. exists "pop", {| Count := 0; Avg := None; Sum := Some 0%float |}.
    split_and!; [exists "population"|..|by left]; vm_compute; reflexivity.
Defined.

Lemma flatten_entry_is_leaf_witness :
  (∅ : gmap string value) !! "a.b.c" = Some (VFloat64 5) ∨
  ∃ path, Leaf Samples.docABC path (VFloat64 5) ∧ isScalar (VFloat64 5) ∧
          "a.b.c" = Join ([] ++ path) ".".
Proof.
  apply (flatten_entry_is_leaf Samples.docABC ∅ [] "a.b.c" (VFloat64 5)).
  vm_compute. reflexivity.
Defined.

Lemma flatten_leaf_recorded_witness :
  flatten Samples.docABC ∅ [] !! Join ([] ++ ["a"; "b"; "c"]) "." = Some (VFloat64 5).
Proof.
  apply (flatten_leaf_recorded Samples.docABC ["a"; "b"; "c"] (VFloat64 5) ∅ []).
  - by apply Leaf_docABC.
  - intros path' z Hleaf _. by apply docABC_unambiguous in Hleaf as [_ ->].
Defined.

Lemma flatten_GetNested_witness :
  flatten Samples.docABC ∅ [] !! Join ["a"; "b"; "c"] "." = Some (VFloat64 5).
Proof.
  apply (flatten_GetNested Samples.docABC ["a"; "b"; "c"] (VFloat64 5) ∅).
  - vm_compute. reflexivity.
  - exact I.
  - intros path' z Hleaf _. by apply docABC_unambiguous in Hleaf as [_ ->].
Defined.

Lemma flatten_lookup_Split_witness :
  flatten Samples.docABC ∅ [] !! "a.b.c" = Some (VFloat64 5)
  ↔ Leaf Samples.docABC (Split "a.b.c" ".") (VFloat64 5).
Proof.
  apply (flatten_lookup_Split {[ "a" := VMap {[ "b" := VMap {[ "c" := VFloat64 5 ]} ]} ]}).
  intros path z Hleaf. by apply (docABC_unambiguous path z).
Defined.
